(** * datasethoster: query dispatch and result shaping

    A shallow embedding of [datasethoster/main.py]: the result grouper
    [convert_results_to_outputs], the registry ([register_query],
    [fetch_query]) and the three request handlers, followed by the
    properties established about them. *)

From Stdlib Require Import ZArith String Ascii List Bool Lia.
From stdpp Require Import base option list strings gmap.

Local Set Warnings "-register-all".
Local Open Scope string_scope.
Local Open Scope Z_scope.

(** ** Python values and exceptions *)

(** Exceptions that travel through the handlers.  [BadRequest] and
    [MethodNotAllowed] are werkzeug's, [RedirectError] is the library's own
    redirect signal, [PyError cls msg] is any other exception, known by its
    class name and its [str()]. *)
Inductive exn : Type :=
| BadRequest (description : string)
| MethodNotAllowed
| RedirectError (url : string)
| PyError (cls : string) (msg : string).

(** Python objects that reach a JSON encoder or a model constructor. *)
Inductive pyobj : Type :=
| PyNone
| PyBool (b : bool)
| PyInt (z : Z)
| PyStr (s : string)
| PyList (items : list pyobj)
| PyDict (entries : list (string * pyobj))
| PyExc (e : exn).

(** ** Output records

    An output record is an instance of a pydantic model class.  The class
    carries [__fields__], a dict whose keys are the field names in
    declaration order, and decides [isinstance(_, QueryOutputLine)]. *)
Record ModelClass : Type := {
  cls_name : string;
  cls_fields : list string;
  cls_is_line : bool
}.

Record OutputRecord : Type := {
  rec_class : ModelClass;
  rec_dict : list (string * pyobj)
}.

(** [result.__fields__.keys()] *)
Definition fields_keys (r : OutputRecord) : list string := cls_fields (rec_class r).

(** [isinstance(result, QueryOutputLine)] *)
Definition isinstance_QueryOutputLine (r : OutputRecord) : bool :=
  cls_is_line (rec_class r).

(** [result.dict()] *)
Definition dict_ (r : OutputRecord) : list (string * pyobj) := rec_dict r.

(** [k in keys] on a keys view. *)
Definition key_in (k : string) (keys : list string) : bool :=
  existsb (String.eqb k) keys.

(** [a == b] on two [dict_keys] views.  A keys view is set-like: the
    interpreter compares the two lengths and then checks that every key of
    the left view is contained in the right one. *)
Definition keys_eq (a b : list string) : bool :=
  Nat.eqb (length a) (length b) && forallb (fun k => key_in k b) a.

(** [a != b] on two [dict_keys] views. *)
Definition keys_ne (a b : list string) : bool := negb (keys_eq a b).

(** Truth value of a model instance: [BaseModel] defines neither
    [__bool__] nor [__len__], so every instance is true. *)
Definition record_truthy (r : OutputRecord) : bool := true.

(** Truth value of a keys view or of a list: non-empty. *)
Definition nonempty {A : Type} (l : list A) : bool :=
  match l with [] => false | _ :: _ => true end.

(** ** The result grouper *)

(** One element of the list returned by [convert_results_to_outputs]:
    the dict with the keys ["columns"], ["data"] and ["no_table"]. *)
Record Block : Type := {
  columns : list string;
  data : list (list (string * pyobj));
  no_table : bool
}.

(** The variables of the loop of [convert_results_to_outputs]. *)
Record GroupState : Type := {
  outputs : list Block;
  last_result : OutputRecord;
  last_keys : list string;
  last_output : list (list (string * pyobj))
}.

(** The dict appended to [outputs], built from the loop variables. *)
Definition close_block (st : GroupState) : Block :=
  {| columns := last_keys st;
     data := last_output st;
     no_table := isinstance_QueryOutputLine (last_result st) |}.

(** One iteration of [for result in results]. *)
Definition group_step (st : GroupState) (result : OutputRecord) : GroupState :=
  let current_keys := fields_keys result in
  let st1 :=
    if keys_ne current_keys (last_keys st) then
      {| outputs := outputs st ++ [close_block st];
         last_result := last_result st;
         last_keys := current_keys;
         last_output := [] |}
    else st in
  {| outputs := outputs st1;
     last_result := result;
     last_keys := last_keys st1;
     last_output := last_output st1 ++ [dict_ result] |}.

(** The loop variables before the first iteration. *)
Definition group_init (first : OutputRecord) : GroupState :=
  {| outputs := [];
     last_result := first;
     last_keys := fields_keys first;
     last_output := [] |}.

(** The statements after the loop: the guarded append and the return. *)
Definition group_finish (st : GroupState) : list Block :=
  if record_truthy (last_result st) && nonempty (last_keys st)
     && nonempty (last_output st)
  then outputs st ++ [close_block st]
  else outputs st.

Definition convert_results_to_outputs (results : list OutputRecord) : list Block :=
  match results with
  | [] => []
  | first :: _ => group_finish (fold_left group_step results (group_init first))
  end.

(** ** Strings and integers *)

(** [url[1:]] *)
Definition drop_first (s : string) : string :=
  match s with
  | EmptyString => EmptyString
  | String _ rest => rest
  end.

(** [s.split("/")[0]]: the text before the first slash. *)
Fixpoint before_slash (s : string) : string :=
  match s with
  | EmptyString => EmptyString
  | String c rest =>
      if Ascii.eqb c "/" then EmptyString else String c (before_slash rest)
  end.

(** The code points of a [str], read from its UTF-8 bytes.  Bytes that are
    not UTF-8 read as U+FFFD, as they do when a request is decoded. *)
Definition byte_value (c : ascii) : Z := Z.of_nat (nat_of_ascii c).

Definition is_continuation (b : Z) : bool := (128 <=? b) && (b <? 192).

Fixpoint code_points (s : list ascii) : list Z :=
  match s with
  | [] => []
  | c0 :: rest =>
      let b0 := byte_value c0 in
      if b0 <? 128 then b0 :: code_points rest
      else
        match rest with
        | [] => [65533]
        | c1 :: rest1 =>
            let b1 := byte_value c1 in
            if (192 <=? b0) && (b0 <? 224) && is_continuation b1
            then ((b0 - 192) * 64 + (b1 - 128)) :: code_points rest1
            else
              match rest1 with
              | [] => 65533 :: code_points rest
              | c2 :: rest2 =>
                  let b2 := byte_value c2 in
                  if (224 <=? b0) && (b0 <? 240) && is_continuation b1
                     && is_continuation b2
                  then ((b0 - 224) * 4096 + (b1 - 128) * 64 + (b2 - 128))
                         :: code_points rest2
                  else
                    match rest2 with
                    | [] => 65533 :: code_points rest
                    | c3 :: rest3 =>
                        let b3 := byte_value c3 in
                        if (240 <=? b0) && (b0 <? 248) && is_continuation b1
                           && is_continuation b2 && is_continuation b3
                        then ((b0 - 240) * 262144 + (b1 - 128) * 4096
                              + (b2 - 128) * 64 + (b3 - 128))
                               :: code_points rest3
                        else 65533 :: code_points rest
                    end
              end
        end
  end.

(** The white space characters beyond ASCII: U+0085, U+00A0, U+1680,
    U+2000 to U+200A, U+2028, U+2029, U+202F, U+205F, U+3000. *)
Definition unicode_spaces : list Z :=
  [133; 160; 5760; 8192; 8193; 8194; 8195; 8196; 8197; 8198; 8199; 8200;
   8201; 8202; 8232; 8233; 8239; 8287; 12288].

(** The code point of the digit zero of every script with decimal digits
    (Unicode 14, the character database of Python 3.11); the nine code
    points after each are its digits one to nine. *)
Definition decimal_zeros : list Z :=
  [48; 1632; 1776; 1984; 2406; 2534; 2662; 2790; 2918; 3046; 3174; 3302;
   3430; 3558; 3664; 3792; 3872; 4160; 4240; 6112; 6160; 6470; 6608; 6784;
   6800; 6992; 7088; 7232; 7248; 42528; 43216; 43264; 43472; 43504; 43600;
   44016; 65296; 66720; 68912; 69734; 69872; 69942; 70096; 70384; 70736;
   70864; 71248; 71360; 71472; 71904; 72016; 72784; 73040; 73120; 92768;
   92864; 93008; 120782; 120792; 120802; 120812; 120822; 123200; 123632;
   125264; 130032].

(** The decimal value of a character, if it is a decimal digit. *)
Definition decimal_of (cp : Z) : option Z :=
  (fun zero => cp - zero)
    <$> List.find (fun zero => (zero <=? cp) && (cp <? zero + 10)) decimal_zeros.

(** What [int()] makes of one character of a [str] before it parses the
    text: a character below U+007F stays, a white space character becomes a
    blank, a decimal digit of any script becomes its ASCII digit; any other
    character makes the conversion fail. *)
Definition to_ascii (cp : Z) : option ascii :=
  if cp <? 127 then Some (ascii_of_nat (Z.to_nat cp))
  else if existsb (Z.eqb cp) unicode_spaces then Some " "%char
  else (fun d => ascii_of_nat (Z.to_nat (48 + d))) <$> decimal_of cp.

Fixpoint transform (cps : list Z) : option (list ascii) :=
  match cps with
  | [] => Some []
  | cp :: rest =>
      match to_ascii cp, transform rest with
      | Some c, Some text => Some (c :: text)
      | _, _ => None
      end
  end.

(** White space that the parser skips around a literal: blank, tab, line
    feed, vertical tab, form feed and carriage return. *)
Definition is_space (c : ascii) : bool :=
  let n := nat_of_ascii c in
  (Nat.leb 9 n && Nat.leb n 13) || Nat.eqb n 32.

Definition is_digit (c : ascii) : bool :=
  let n := nat_of_ascii c in Nat.leb 48 n && Nat.leb n 57.

Definition digit_value (c : ascii) : Z := Z.of_nat (nat_of_ascii c) - 48.

Fixpoint skip_spaces (s : list ascii) : list ascii :=
  match s with
  | c :: rest => if is_space c then skip_spaces rest else s
  | [] => []
  end.

(** Digits of a decimal literal, single underscores allowed between two
    digits.  [after_sep] holds at the start and right after an underscore,
    where a digit must follow. *)
Fixpoint scan_digits (s : list ascii) (acc : Z) (after_sep : bool) : option Z :=
  match s with
  | [] => if after_sep then None else Some acc
  | c :: rest =>
      if is_digit c then scan_digits rest (10 * acc + digit_value c) false
      else if Ascii.eqb c "_" && negb after_sep then scan_digits rest acc true
      else None
  end.

(** The default of [sys.int_max_str_digits]: a literal with more digits is
    refused. *)
Definition MAX_STR_DIGITS : nat := 4300.

(** [int(s)] for a [str], base 10: the characters are brought to ASCII,
    then come surrounding white space, an optional sign and the digits.
    [None] stands for [ValueError]. *)
Definition py_int (s : string) : option Z :=
  match transform (code_points (list_ascii_of_string s)) with
  | None => None
  | Some text =>
      let body := rev (skip_spaces (rev (skip_spaces text))) in
      if Nat.ltb MAX_STR_DIGITS (length (List.filter is_digit body)) then None
      else
        match body with
        | c :: rest =>
            if Ascii.eqb c "-" then Z.opp <$> scan_digits rest 0 true
            else if Ascii.eqb c "+" then scan_digits rest 0 true
            else scan_digits body 0 true
        | [] => None
        end
  end.

(** [s.replace(old, new)]: every non-overlapping occurrence, left to right.
    [skip] counts the characters of an occurrence still to be dropped. *)
Fixpoint replace_from (old new s : string) (skip : nat) : string :=
  match s with
  | EmptyString => EmptyString
  | String c rest =>
      match skip with
      | S k => replace_from old new rest k
      | O =>
          if String.prefix old s
          then new ++ replace_from old new rest (Nat.pred (String.length old))
          else String c (replace_from old new rest O)
      end
  end.

Fixpoint interleave (new s : string) : string :=
  match s with
  | EmptyString => new
  | String c rest => new ++ String c (interleave new rest)
  end.

Definition str_replace (s old new : string) : string :=
  match old with
  | EmptyString => interleave new s
  | _ => replace_from old new s O
  end.

(** [str(e)] *)
Definition exn_str (e : exn) : string :=
  match e with
  | BadRequest d => "400 Bad Request: " ++ d
  | MethodNotAllowed =>
      "405 Method Not Allowed: The method is not allowed for the requested URL."
  | RedirectError url => url
  | PyError _ msg => msg
  end.

Definition exn_class (e : exn) : string :=
  match e with
  | BadRequest _ => "BadRequest"
  | MethodNotAllowed => "MethodNotAllowed"
  | RedirectError _ => "RedirectError"
  | PyError cls _ => cls
  end.

(** [traceback.format_exc()] inside an [except] block, without the frames. *)
Definition format_exc (e : exn) : string :=
  "Traceback (most recent call last): " ++ exn_class e ++ ": " ++ exn_str e.

(** ** Requests, queries and the process state *)

(** [request.args] is a multi-dict in query-string order; [request.json] is
    the decoded body, or the error raised while decoding it. *)
Record Request : Type := {
  path : string;
  url : string;
  method : string;
  args : list (string * string);
  json : exn + pyobj
}.

Inductive RequestSource : Type := web | json_get | json_post.

(** A validated input record: its field mapping. *)
Definition Input : Type := list (string * pyobj).

(** The input model class returned by [query.inputs()]: its [__fields__]
    and its constructor, which validates keyword arguments or raises. *)
Record InputModel : Type := {
  im_fields : list string;
  im_validate : list (string * pyobj) -> exn + Input
}.

(** The query contract.  [setup] is [Some e] when the call raises [e];
    [fetch] takes the inputs, the source and the [offset]/[count] keyword
    arguments when they are passed. *)
Record Query : Type := {
  setup : option exn;
  names : string * string;
  introduction : string;
  inputs : InputModel;
  fetch : list Input -> RequestSource -> option (Z * Z) -> exn + list OutputRecord
}.

(** A rule installed with [dataset_bp.add_url_rule]. *)
Inductive View : Type := view_web_query_handler | view_json_query_handler.

Record UrlRule : Type := {
  rule : string;
  endpoint : string;
  view_func : View;
  methods : option (list string)
}.

(** What the code does to the outside, in order. *)
Inductive Event : Type :=
| EvSetup (slug : string)
| EvRegistrySet (slug : string)
| EvAddUrlRule (r : UrlRule)
| EvInputModel (kwargs : list (string * pyobj))
| EvFetch (ins : list Input) (source : RequestSource) (pagination : option (Z * Z))
| EvCapture (e : exn)
| EvPrint (text : string).

(** The module globals [registered_queries] and [dataset_bp], and the log
    of effects. *)
Record World : Type := {
  registered_queries : gmap string Query;
  url_rules : list UrlRule;
  trace : list Event
}.

(** ** Programs: state, log and exceptions *)

Definition Prog (A : Type) : Type := World -> (exn + A) * World.

Definition ret {A : Type} (a : A) : Prog A := fun w => (inr a, w).

Definition raise {A : Type} (e : exn) : Prog A := fun w => (inl e, w).

Definition bind {A B : Type} (m : Prog A) (f : A -> Prog B) : Prog B :=
  fun w =>
    match m w with
    | (inl e, w') => (inl e, w')
    | (inr a, w') => f a w'
    end.

(** [try: m except Exception as e: handler e] *)
Definition try_except {A : Type} (m : Prog A) (handler : exn -> Prog A) : Prog A :=
  fun w =>
    match m w with
    | (inl e, w') => handler e w'
    | (inr a, w') => (inr a, w')
    end.

Definition emit (ev : Event) : Prog unit :=
  fun w =>
    (inr tt,
     {| registered_queries := registered_queries w;
        url_rules := url_rules w;
        trace := trace w ++ [ev] |}).

Definition lift {A : Type} (r : exn + A) : Prog A :=
  match r with
  | inl e => raise e
  | inr a => ret a
  end.

Declare Scope prog_scope.
Delimit Scope prog_scope with prog.
Notation "x <- m ;; k" := (bind m (fun x => k))
  (at level 100, m at next level, right associativity) : prog_scope.
Notation "m ;; k" := (bind m (fun _ => k))
  (at level 100, right associativity) : prog_scope.
Local Open Scope prog_scope.

(** ** Calls into the query and the framework *)

(** [query.setup()] *)
Definition call_setup (query : Query) : Prog unit :=
  emit (EvSetup (fst (names query))) ;;
  match setup query with
  | Some e => raise e
  | None => ret tt
  end.

(** The call of the input model class on keyword arguments. *)
Definition call_input_model (input_model : InputModel)
    (kwargs : list (string * pyobj)) : Prog Input :=
  emit (EvInputModel kwargs) ;; lift (im_validate input_model kwargs).

(** [query.fetch(inputs, source)] and
    [query.fetch(inputs, source, offset=offset, count=count)] *)
Definition call_fetch (query : Query) (ins : list Input) (source : RequestSource)
    (pagination : option (Z * Z)) : Prog (list OutputRecord) :=
  emit (EvFetch ins source pagination) ;; lift (fetch query ins source pagination).

(** [sentry_sdk.capture_exception(err)] *)
Definition capture_exception (err : exn) : Prog unit := emit (EvCapture err).

(** [print(text)] *)
Definition print (text : string) : Prog unit := emit (EvPrint text).

(** [registered_queries[slug] = query] *)
Definition registry_set (slug : string) (query : Query) : Prog unit :=
  fun w =>
    (inr tt,
     {| registered_queries := <[slug := query]> (registered_queries w);
        url_rules := url_rules w;
        trace := trace w ++ [EvRegistrySet slug] |}).

(** [dataset_bp.add_url_rule(rule, endpoint, view_func, methods=methods)] *)
Definition add_url_rule (r : UrlRule) : Prog unit :=
  fun w =>
    (inr tt,
     {| registered_queries := registered_queries w;
        url_rules := url_rules w ++ [r];
        trace := trace w ++ [EvAddUrlRule r] |}).

(** [int(text)] as a statement: the value, or [ValueError]. *)
Definition int_ (text : string) : Prog Z :=
  match py_int text with
  | Some z => ret z
  | None =>
      raise (PyError "ValueError"
               ("invalid literal for int() with base 10: '" ++ text ++ "'"))
  end.

(** The first value of [key] in [request.args], if the key is present. *)
Fixpoint args_lookup (a : list (string * string)) (key : string) : option string :=
  match a with
  | [] => None
  | (k, v) :: rest => if String.eqb k key then Some v else args_lookup rest key
  end.

(** [request.args.get(key, default)] *)
Definition args_get (a : list (string * string)) (key default : string) : string :=
  match args_lookup a key with
  | Some v => v
  | None => default
  end.

(** The keyword arguments of [**request.args]: every key once, in order of
    first appearance, with its first value. *)
Fixpoint args_kwargs (a : list (string * string)) (seen : list string)
    : list (string * pyobj) :=
  match a with
  | [] => []
  | (k, v) :: rest =>
      if key_in k seen then args_kwargs rest seen
      else (k, PyStr v) :: args_kwargs rest (k :: seen)
  end.

(** Flask's JSON provider has no encoder for exception objects: the class
    name of the first object in [o] the encoder gives up on, if any. *)
Fixpoint first_unserializable (o : pyobj) : option string :=
  match o with
  | PyList items =>
      (fix go (l : list pyobj) : option string :=
         match l with
         | [] => None
         | x :: rest =>
             match first_unserializable x with
             | Some c => Some c
             | None => go rest
             end
         end) items
  | PyDict entries =>
      (fix go (l : list (string * pyobj)) : option string :=
         match l with
         | [] => None
         | (_, x) :: rest =>
             match first_unserializable x with
             | Some c => Some c
             | None => go rest
             end
         end) entries
  | PyExc e => Some (exn_class e)
  | _ => None
  end.

(** Responses a view function returns. *)
Record QueryPage : Type := {
  page_error : string;
  page_fields : list string;
  page_results : list Block;
  page_introduction : string;
  page_args : list (string * string);
  page_desc : string;
  page_slug : string;
  page_json_url : string;
  page_json_post : option pyobj
}.

Inductive Response : Type :=
| RenderError (error : string)
| RenderQuery (page : QueryPage)
| Redirect (location : string)
| Jsonify (body : pyobj) (status : Z)
| JsonResponse (body : pyobj).

(** [jsonify(body)]: the encoded document, or the [TypeError] of the
    encoder. *)
Definition jsonify (body : pyobj) : Prog pyobj :=
  match first_unserializable body with
  | Some cls =>
      raise (PyError "TypeError"
               ("Object of type " ++ cls ++ " is not JSON serializable"))
  | None => ret body
  end.

(** [QueryOutputWrapperModel(__root__=records)] followed by [.json()]: the
    JSON array of the records' field mappings. *)
Definition wrapper_json (records : list (list (string * pyobj))) : pyobj :=
  PyList (PyDict <$> records).

Definition DEFAULT_QUERY_RESULT_SIZE : Z := 100.

(** [str(DEFAULT_QUERY_RESULT_SIZE)] *)
Definition DEFAULT_QUERY_RESULT_SIZE_str : string := "100".

(** ** The registry *)

Definition register_query (query : Query) : Prog unit :=
  call_setup query ;;
  let '(slug, name) := names query in
  registry_set slug query ;;
  add_url_rule {| rule := "/" ++ slug; endpoint := slug;
                  view_func := view_web_query_handler; methods := None |} ;;
  add_url_rule {| rule := "/" ++ slug ++ "/json"; endpoint := slug ++ "_json";
                  view_func := view_json_query_handler;
                  methods := Some ["GET"; "POST"; "OPTIONS"] |}.

Definition fetch_query (url_path : string) : Prog (option Query * string) :=
  fun w =>
    let slug := before_slash (drop_first url_path) in
    match registered_queries w !! slug with
    | Some query => (inr (Some query, ""), w)
    | None =>
        (inr (None, "Requested query '" ++ slug ++ "' not hosted on this site."), w)
    end.

(** A method call on the [query] variable; on [None] Python raises
    [AttributeError]. *)
Definition the_query (query : option Query) : Prog Query :=
  match query with
  | Some q => ret q
  | None => raise (PyError "AttributeError" "'NoneType' object has no attribute")
  end.

(** Truth value of a string: non-empty. *)
Definition str_truthy (s : string) : bool :=
  match s with EmptyString => false | String _ _ => true end.

Definition unsupported_pagination : string :=
  "offset and count arguments are only supported for the POST method".

(** ** The request handlers *)

Definition web_query_handler (request : Request) : Prog Response :=
  found <- fetch_query (path request) ;;
  let '(query, error) := found in
  if str_truthy error then ret (RenderError error) else
  offset <- int_ (args_get (args request) "offset" "-1") ;;
  count <- int_ (args_get (args request) "count" "-1") ;;
  if (0 <=? offset) || (0 <=? count) then ret (RenderError unsupported_pagination) else
  query <- the_query query ;;
  let '(slug, desc) := names query in
  let input_model := inputs query in
  let page results json_post :=
    {| page_error := error;
       page_fields := im_fields input_model;
       page_results := results;
       page_introduction := introduction query;
       page_args := args request;
       page_desc := desc;
       page_slug := slug;
       page_json_url := str_replace (url request) slug (slug ++ "/json");
       page_json_post := json_post |} in
  if nonempty (args request) then
    r <- try_except
           (inp <- call_input_model input_model (args_kwargs (args request) []) ;;
            results <- call_fetch query [inp] web None ;;
            ret (inr ([inp], results)))
           (fun err =>
              match err with
              | RedirectError location => ret (inl (Redirect location))
              | _ =>
                  capture_exception err ;;
                  ret (inl (RenderError (format_exc err)))
              end) ;;
    match r with
    | inl response => ret response
    | inr (ins, results) =>
        ret (RenderQuery (page (convert_results_to_outputs results)
                               (Some (wrapper_json ins))))
    end
  else ret (RenderQuery (page [] None)).

Definition json_query_handler_get (request : Request) : Prog Response :=
  found <- fetch_query (path request) ;;
  let '(query, error) := found in
  if str_truthy error then raise (BadRequest error) else
  offset <- int_ (args_get (args request) "offset" "-1") ;;
  count <- int_ (args_get (args request) "count" "-1") ;;
  if (0 <=? offset) || (0 <=? count) then raise (BadRequest unsupported_pagination) else
  query <- the_query query ;;
  let input_model := inputs query in
  ins <- try_except
           (inp <- call_input_model input_model (args_kwargs (args request) []) ;;
            ret [inp])
           (fun e => raise (BadRequest (exn_str e))) ;;
  r <- try_except
         (data <- call_fetch query ins json_get None ;;
          ret (inr (wrapper_json (dict_ <$> data))))
         (fun err =>
            capture_exception err ;;
            print (format_exc err) ;;
            body <- jsonify (PyDict []) ;;
            ret (inl (Jsonify body 500))) ;;
  match r with
  | inl response => ret response
  | inr result => ret (JsonResponse result)
  end.

(** The items of [for item in request.json]. *)
Definition iter_json (body : pyobj) : exn + list pyobj :=
  match body with
  | PyList items => inr items
  | PyDict entries => inr ((fun kv => PyStr (fst kv)) <$> entries)
  | PyStr s => inr ((fun c => PyStr (String c EmptyString)) <$> list_ascii_of_string s)
  | _ => inl (PyError "TypeError" "object is not iterable")
  end.

(** The keyword arguments of a double-star unpacking of [item]. *)
Definition unpack_mapping (item : pyobj) : exn + list (string * pyobj) :=
  match item with
  | PyDict entries => inr entries
  | _ => inl (PyError "TypeError" "argument after ** must be a mapping")
  end.

(** The loop that fills [inputs] from the items of the body. *)
Fixpoint bind_items (input_model : InputModel) (items : list pyobj)
    (acc : list Input) : Prog (list Input) :=
  match items with
  | [] => ret acc
  | item :: rest =>
      kwargs <- lift (unpack_mapping item) ;;
      inp <- call_input_model input_model kwargs ;;
      bind_items input_model rest (acc ++ [inp])
  end.

(** The [try] block around that loop, with its [except] clause. *)
Definition bind_body (input_model : InputModel) (request : Request)
    : Prog (list Input) :=
  try_except
    (body <- lift (json request) ;;
     items <- lift (iter_json body) ;;
     bind_items input_model items [])
    (fun e => raise (BadRequest (exn_str e))).

Definition json_query_handler_post (request : Request) : Prog Response :=
  found <- fetch_query (path request) ;;
  let '(query, error) := found in
  if str_truthy error then raise (BadRequest error) else
  query <- the_query query ;;
  let input_model := inputs query in
  ins <- bind_body input_model request ;;
  offset <- int_ (args_get (args request) "offset" "0") ;;
  count <- int_ (args_get (args request) "count" DEFAULT_QUERY_RESULT_SIZE_str) ;;
  r <- try_except
         (data <- call_fetch query ins json_post (Some (offset, count)) ;;
          ret (inr (wrapper_json (dict_ <$> data))))
         (fun err =>
            capture_exception err ;;
            print (format_exc err) ;;
            body <- jsonify (PyDict [("error", PyExc err)]) ;;
            ret (inl (Jsonify body 400))) ;;
  match r with
  | inl response => ret response
  | inr result => ret (JsonResponse result)
  end.

(** The [crossdomain] decorator, declared in another module of the package,
    adds headers to what this function returns and is left out. *)
Definition json_query_handler (request : Request) : Prog Response :=
  if String.eqb (method request) "GET" then json_query_handler_get request
  else if String.eqb (method request) "POST" then json_query_handler_post request
  else raise MethodNotAllowed.

(** ** The example query of [example/example.py] *)

Definition OutputComment : ModelClass :=
  {| cls_name := "OutputComment"; cls_fields := ["comment"]; cls_is_line := false |}.

Definition OutputData : ModelClass :=
  {| cls_name := "OutputData";
     cls_fields := ["listened_at"; "duration"; "difference"; "skipped";
                    "artist_name"; "track_name"; "recording_mbid"];
     cls_is_line := false |}.

(** Coercion of a keyword argument to an [int] field. *)
Definition coerce_int (v : pyobj) : option Z :=
  match v with
  | PyInt z => Some z
  | PyStr s => py_int s
  | _ => None
  end.

Fixpoint kwargs_lookup (kwargs : list (string * pyobj)) (key : string) : option pyobj :=
  match kwargs with
  | [] => None
  | (k, v) :: rest => if String.eqb k key then Some v else kwargs_lookup rest key
  end.

(** [ExampleInput]: two required [int] fields. *)
Definition ExampleInput : InputModel :=
  {| im_fields := ["number"; "num_lines"];
     im_validate := fun kwargs =>
       match kwargs_lookup kwargs "number" ≫= coerce_int,
             kwargs_lookup kwargs "num_lines" ≫= coerce_int with
       | Some n, Some m => inr [("number", PyInt n); ("num_lines", PyInt m)]
       | _, _ => inl (PyError "ValidationError" "validation error for ExampleInput")
       end |}.

(** [ExampleQuery].  [file] is what reading and converting
    [/app/data.json] gives: the records, or the error raised on the way.
    [fetch] is declared as [fetch(self, params, offset=-1, count=-1)], so a
    call that passes a source positionally and [offset] by keyword raises
    [TypeError]. *)
Definition ExampleQuery (file : exn + list OutputRecord) : Query :=
  {| setup := None;
     names := ("example", "Useless arithmetic table example");
     introduction :=
       "This is the introduction, which could provide more useful info that this introduction does.";
     inputs := ExampleInput;
     fetch := fun _ _ pagination =>
       match pagination with
       | Some _ =>
           inl (PyError "TypeError" "fetch() got multiple values for argument 'offset'")
       | None => file
       end |}.

(** ** Sample records *)

(** A class deriving from [QueryOutputLine]; that base class is declared in
    the package's [__init__], a class is known here by whether it derives
    from it. *)
Definition AnnotationLine : ModelClass :=
  {| cls_name := "AnnotationLine"; cls_fields := ["line"]; cls_is_line := true |}.

(** A plain model with the same field. *)
Definition PlainText : ModelClass :=
  {| cls_name := "PlainText"; cls_fields := ["line"]; cls_is_line := false |}.

(** A model that declares no field. *)
Definition NoFields : ModelClass :=
  {| cls_name := "NoFields"; cls_fields := []; cls_is_line := false |}.

(** Two models with the same two fields, declared in opposite orders. *)
Definition ArtistTrack : ModelClass :=
  {| cls_name := "ArtistTrack"; cls_fields := ["artist_name"; "track_name"];
     cls_is_line := false |}.

Definition TrackArtist : ModelClass :=
  {| cls_name := "TrackArtist"; cls_fields := ["track_name"; "artist_name"];
     cls_is_line := false |}.

Definition comment_record (text : string) : OutputRecord :=
  {| rec_class := OutputComment; rec_dict := [("comment", PyStr text)] |}.

Definition data_record (artist track : string) (duration : Z) : OutputRecord :=
  {| rec_class := OutputData;
     rec_dict := [("listened_at", PyStr "2023-01-01"); ("duration", PyInt duration);
                  ("difference", PyNone); ("skipped", PyNone);
                  ("artist_name", PyStr artist); ("track_name", PyStr track);
                  ("recording_mbid", PyNone)] |}.

(** An output stream as the example query yields it: a comment, two rows,
    another comment. *)
Definition sample_results : list OutputRecord :=
  [comment_record "first"; data_record "a" "t1" 100; data_record "b" "t2" 200;
   comment_record "second"].

Definition line_record (c : ModelClass) (text : string) : OutputRecord :=
  {| rec_class := c; rec_dict := [("line", PyStr text)] |}.

Definition artist_track_record : OutputRecord :=
  {| rec_class := ArtistTrack;
     rec_dict := [("artist_name", PyStr "a"); ("track_name", PyStr "t")] |}.

Definition track_artist_record : OutputRecord :=
  {| rec_class := TrackArtist;
     rec_dict := [("track_name", PyStr "t"); ("artist_name", PyStr "a")] |}.

Definition fieldless_record : OutputRecord :=
  {| rec_class := NoFields; rec_dict := [] |}.

(** A query whose backing store is unavailable: every [fetch] raises
    [err]. *)
Definition FailingQuery (err : exn) : Query :=
  {| setup := None;
     names := ("broken", "Query over a missing store");
     introduction := "";
     inputs := ExampleInput;
     fetch := fun _ _ _ => inl err |}.

(** A query whose [setup] raises [err]. *)
Definition UnsetQuery (err : exn) : Query :=
  {| setup := Some err;
     names := ("unset", "Query that cannot be set up");
     introduction := "";
     inputs := ExampleInput;
     fetch := fun _ _ _ => inr [] |}.

(** The process before any registration. *)
Definition empty_world : World :=
  {| registered_queries := ∅; url_rules := []; trace := [] |}.

(** The process after [register_query(query)], with a fresh log. *)
Definition world_with (query : Query) : World :=
  let w := snd (register_query query empty_world) in
  {| registered_queries := registered_queries w;
     url_rules := url_rules w;
     trace := [] |}.

Definition get_request (url_path : string) (query_string : list (string * string))
    : Request :=
  {| path := url_path; url := "http://localhost" ++ url_path; method := "GET";
     args := query_string;
     json := inl (BadRequest "Did not attempt to load JSON data") |}.

Definition post_request (url_path : string) (query_string : list (string * string))
    (body : pyobj) : Request :=
  {| path := url_path; url := "http://localhost" ++ url_path; method := "POST";
     args := query_string; json := inr body |}.

(** The process that hosts the example query over [sample_results]. *)
Definition example_query : Query := ExampleQuery (inr sample_results).

Definition example_world : World := world_with example_query.



(** A batch of two raw inputs, the second of which is invalid. *)
Definition mixed_batch : list (list (string * pyobj)) :=
  [[("number", PyInt 1); ("num_lines", PyInt 2)]; [("number", PyStr "one")]].

Definition mixed_batch_request : Request :=
  post_request "/example/json" [] (PyList (PyDict <$> mixed_batch)).



(** The error of opening a data file that is not there. *)
Definition missing_file : exn :=
  PyError "FileNotFoundError" "No such file or directory: '/app/data.json'".

Definition broken_world : World := world_with (FailingQuery missing_file).

(** A query whose [setup] cannot open its store. *)
Definition unset_query : Query := UnsetQuery missing_file.

Definition broken_post_request : Request :=
  post_request "/broken/json" []
    (PyList [PyDict [("number", PyInt 1); ("num_lines", PyInt 2)]]).

Definition broken_get_request : Request :=
  get_request "/broken/json" [("number", "1"); ("num_lines", "2")].

(** A run that mixes a [QueryOutputLine] record with a plain record of the
    same field. *)
Definition mixed_line_results : list OutputRecord :=
  [line_record AnnotationLine "note"; line_record PlainText "text"].

(** ** Notions used in the statements *)

(** Two field-name lists denote the same set. *)
Definition same_names (a b : list string) : bool :=
  forallb (fun k => key_in k b) a && forallb (fun k => key_in k a) b.

(** Indices, counted from [i], of the records of [rs] whose field-name set
    differs from that of the record before; [prev] are the field names of
    the record before the first of [rs]. *)
Fixpoint changes_from (prev : list string) (i : nat) (rs : list OutputRecord)
    : list nat :=
  match rs with
  | [] => []
  | r :: rest =>
      (if same_names prev (fields_keys r) then [] else [i])
        ++ changes_from (fields_keys r) (S i) rest
  end.

Definition shape_changes (results : list OutputRecord) : list nat :=
  match results with
  | [] => []
  | first :: rest => changes_from (fields_keys first) 1 rest
  end.

(** The index just past the last record of each block, when the blocks are
    laid out one after the other from index [base]. *)
Fixpoint block_ends (base : nat) (bs : list Block) : list nat :=
  match bs with
  | [] => []
  | b :: rest =>
      (base + length (data b))%nat :: block_ends (base + length (data b))%nat rest
  end.

(** The indices at which a block other than the first starts. *)
Definition block_boundaries (bs : list Block) : list nat :=
  removelast (block_ends 0 bs).

(** The records of all blocks, in order. *)
Definition block_records (bs : list Block) : list (list (string * pyobj)) :=
  concat (data <$> bs).

(** A block that ends at index [e] holds the records of [results] just
    before [e], and its flag is the class test of the last of them. *)
Definition block_of_run (results : list OutputRecord) (b : Block) (e : nat) : Prop :=
  data b = dict_ <$> take (length (data b)) (drop (e - length (data b)) results)
  /\ exists r, results !! (e - 1)%nat = Some r
               /\ no_table b = isinstance_QueryOutputLine r.

(** The loop variables after the loop has gone over [first :: rest]. *)
Definition loop_state (first : OutputRecord) (rest : list OutputRecord) : GroupState :=
  fold_left group_step (first :: rest) (group_init first).

(** What the loop maintains, [done] being the records gone over so far. *)
Record loop_inv (done : list OutputRecord) (st : GroupState) : Prop := {
  inv_records : (block_records (outputs st) ++ last_output st)%list = dict_ <$> done;
  inv_last : last done = Some (last_result st);
  inv_open : last_output st <> [];
  inv_keys : keys_eq (fields_keys (last_result st)) (last_keys st) = true;
  inv_nonempty : Forall (fun b => data b <> []) (outputs st);
  inv_runs : Forall2 (block_of_run done) (outputs st) (block_ends 0 (outputs st))
}.

(** The reading of the flag that takes any record of the run: the flag of
    a block that ends at [e] is the class test of each record in its range. *)
Definition flag_of_any_record (results : list OutputRecord) (b : Block) (e : nat) : Prop :=
  forall (i : nat) (r : OutputRecord),
    (e - length (data b) <= i < e)%nat ->
    results !! i = Some r ->
    no_table b = isinstance_QueryOutputLine r.

Definition is_fetch (ev : Event) : bool :=
  match ev with EvFetch _ _ _ => true | _ => false end.

Definition is_input_model (ev : Event) : bool :=
  match ev with EvInputModel _ => true | _ => false end.

(** The events logged between two states of the world. *)
Definition events_since (w w' : World) (evs : list Event) : Prop :=
  trace w' = (trace w ++ evs)%list.

(** A program that leaves the registry and the routes alone and logs only
    events of the kind [kind]. *)
Definition only_events {A : Type} (kind : Event -> bool) (m : Prog A) : Prop :=
  forall w : World,
    registered_queries (snd (m w)) = registered_queries w
    /\ url_rules (snd (m w)) = url_rules w
    /\ exists evs, events_since w (snd (m w)) evs /\ forallb kind evs = true.

(** The query a request path resolves to. *)
Definition hosted (w : World) (request : Request) (query : Query) : Prop :=
  registered_queries w !! before_slash (drop_first (path request)) = Some query.

(** ** Further notions about the grouper *)

(** The open run of the loop: [done] splits into the records already in
    closed blocks and the records of the run being collected, whose first
    record gave [last_keys]. *)
Definition run_inv (done : list OutputRecord) (st : GroupState) : Prop :=
  exists (pre run : list OutputRecord) (r0 : OutputRecord),
    done = (pre ++ run)%list
    /\ head run = Some r0
    /\ last_keys st = fields_keys r0
    /\ block_records (outputs st) = dict_ <$> pre
    /\ last_output st = dict_ <$> run
    /\ Forall (fun r => keys_eq (fields_keys r) (last_keys st) = true) run.

(** The columns of a block that ends at [e] are the field names of the
    first record in its range. *)
Definition block_columns (results : list OutputRecord) (b : Block) (e : nat) : Prop :=
  exists r, results !! (e - length (data b))%nat = Some r
            /\ columns b = fields_keys r.

(** The loop variables with [pre] in front of the blocks closed so far. *)
Definition with_outputs (pre : list Block) (st : GroupState) : GroupState :=
  {| outputs := (pre ++ outputs st)%list;
     last_result := last_result st;
     last_keys := last_keys st;
     last_output := last_output st |}.

(** A stream of rows followed by a stream that opens with a comment. *)
Definition row_results : list OutputRecord :=
  [data_record "a" "t1" 100; data_record "b" "t2" 200].

Definition comment_results : list OutputRecord :=
  [comment_record "second"; data_record "c" "t3" 300].

(** Every block of [bs] differs in shape, by the comparison of the loop,
    from the block before it. *)
Fixpoint neighbours_differ (bs : list Block) : Prop :=
  match bs with
  | b1 :: rest =>
      match rest with
      | b2 :: _ => keys_eq (columns b2) (columns b1) = false
      | [] => True
      end
      /\ neighbours_differ rest
  | [] => True
  end.

(** Every record in the range of a block that ends at [e] compares equal in
    shape to the columns of the block. *)
Definition block_uniform (results : list OutputRecord) (b : Block) (e : nat) : Prop :=
  (e <= length results)%nat
  /\ forall (i : nat) (r : OutputRecord),
       (e - length (data b) <= i < e)%nat ->
       results !! i = Some r ->
       keys_eq (fields_keys r) (columns b) = true.

(** ** Further notions about the registry and the handlers *)

(** Whether a slash occurs in a slug. *)
Fixpoint has_slash (s : string) : bool :=
  match s with
  | EmptyString => false
  | String c rest => Ascii.eqb c "/" || has_slash rest
  end.

(** The two routes [register_query] installs for a slug. *)
Definition web_rule (slug : string) : UrlRule :=
  {| rule := "/" ++ slug; endpoint := slug;
     view_func := view_web_query_handler; methods := None |}.

Definition json_rule (slug : string) : UrlRule :=
  {| rule := "/" ++ slug ++ "/json"; endpoint := slug ++ "_json";
     view_func := view_json_query_handler;
     methods := Some ["GET"; "POST"; "OPTIONS"] |}.

(** The message of [fetch_query] for a slug that is not registered. *)
Definition not_hosted (slug : string) : string :=
  "Requested query '" ++ slug ++ "' not hosted on this site.".

(** The slug a request path names. *)
Definition request_slug (request : Request) : string :=
  before_slash (drop_first (path request)).

(** The request carries no pagination the single-input paths object to:
    [offset] and [count], each [-1] when absent, parse as negative
    integers. *)
Definition unpaginated (request : Request) : Prop :=
  exists o c : Z,
    py_int (args_get (args request) "offset" "-1") = Some o
    /\ py_int (args_get (args request) "count" "-1") = Some c
    /\ o < 0 /\ c < 0.

(** The number of [fetch] calls in a log. *)
Definition fetch_count (evs : list Event) : nat :=
  length (List.filter is_fetch evs).

(** A program that leaves the registry and the routes alone, only adds to
    the log, and calls [fetch] at most [k] times. *)
Definition runs_within {A : Type} (k : nat) (m : Prog A) : Prop :=
  forall w : World,
    registered_queries (snd (m w)) = registered_queries w
    /\ url_rules (snd (m w)) = url_rules w
    /\ exists evs, events_since w (snd (m w)) evs /\ (fetch_count evs <= k)%nat.

(** A second query under the slug of the example query. *)
Definition rival_query : Query :=
  {| setup := None;
     names := ("example", "A later query under the same slug");
     introduction := "";
     inputs := ExampleInput;
     fetch := fun _ _ _ => inr [] |}.

(** ** Further sample requests *)

(** [GET /nowhere?offset=abc] *)
Definition unknown_request : Request :=
  get_request "/nowhere" [("offset", "abc")].

(** [GET /example] *)
Definition bare_request : Request := get_request "/example" [].

(** [GET /example?number=1&num_lines=2] *)
Definition plain_request : Request :=
  get_request "/example" [("number", "1"); ("num_lines", "2")].

(** [GET /example?number=one] *)
Definition invalid_get_request : Request :=
  get_request "/example" [("number", "one")].

(** The input [plain_request] binds to. *)
Definition plain_input : Input := [("number", PyInt 1); ("num_lines", PyInt 2)].

(** A query that sends its caller elsewhere. *)
Definition redirecting_query : Query :=
  {| setup := None;
     names := ("moved", "Query that redirects");
     introduction := "";
     inputs := ExampleInput;
     fetch := fun _ _ _ => inl (RedirectError "https://example.org/elsewhere") |}.

Definition moved_request : Request :=
  get_request "/moved" [("number", "1"); ("num_lines", "2")].

(** A query that answers on every path, whatever the pagination. *)
Definition steady_query : Query :=
  {| setup := None;
     names := ("steady", "Query that always answers");
     introduction := "";
     inputs := ExampleInput;
     fetch := fun _ _ _ => inr sample_results |}.

Definition steady_world : World := world_with steady_query.

(** [POST /steady/json] with one valid input and no pagination. *)
Definition steady_post_request : Request :=
  post_request "/steady/json" [] (PyList [PyDict plain_input]).


(** [POST /example/json] whose body is a JSON object, not an array. *)
Definition object_body_request : Request :=
  post_request "/example/json" [] (PyDict plain_input).

(** * Properties *)

(** Closes goals about concrete lists of field names. *)
Ltac solve_nodup :=
  repeat first
    [ apply Forall_nil_2
    | apply Forall_cons_2
    | apply NoDup_nil_2
    | apply NoDup_cons_2; [rewrite list_elem_of_In; simpl; intuition discriminate|] ].

(** ** Keys views *)

Lemma key_in_In (k : string) (l : list string) : key_in k l = true <-> In k l.
Proof.
  unfold key_in. rewrite existsb_exists. split.
  - intros (x & Hx & Heq). apply String.eqb_eq in Heq. now subst.
  - intros Hk. exists k. split; [assumption | apply String.eqb_refl].
Qed.

Lemma all_in_incl (a b : list string) :
  forallb (fun k => key_in k b) a = true <-> incl a b.
Proof.
  rewrite forallb_forall. unfold incl.
  split; intros H k Hk; apply key_in_In; auto.
Qed.

Lemma keys_eq_refl (a : list string) : keys_eq a a = true.
Proof.
  unfold keys_eq. rewrite Nat.eqb_refl. simpl.
  apply all_in_incl, incl_refl.
Qed.

Lemma keys_eq_length (a b : list string) :
  keys_eq a b = true -> length a = length b.
Proof.
  unfold keys_eq. intros H. apply andb_true_iff in H as [H _].
  now apply Nat.eqb_eq in H.
Qed.

Lemma same_names_iff (a b : list string) :
  same_names a b = true <-> (forall k, In k a <-> In k b).
Proof.
  unfold same_names. rewrite andb_true_iff, !all_in_incl. unfold incl.
  split.
  - intros [Hab Hba] k. split; auto.
  - intros H. split; intros k; apply H.
Qed.

(** On duplicate-free lists, which is what the keys of a dict are, the
    interpreter's comparison of two keys views is equality of sets. *)
Lemma keys_eq_same_names (a b : list string) :
  NoDup a -> NoDup b -> keys_eq a b = same_names a b.
Proof.
  intros Ha%NoDup_ListNoDup Hb%NoDup_ListNoDup. unfold keys_eq, same_names.
  destruct (forallb (fun k => key_in k b) a) eqn:Hab; simpl.
  2: now rewrite andb_false_r.
  rewrite andb_true_r. apply all_in_incl in Hab.
  destruct (forallb (fun k => key_in k a) b) eqn:Hba.
  - apply all_in_incl in Hba. apply Nat.eqb_eq.
    apply Nat.le_antisymm; apply NoDup_incl_length; assumption.
  - apply Nat.eqb_neq. intros Hlen.
    assert (Hincl : incl b a).
    { apply NoDup_length_incl; [assumption | lia | assumption]. }
    apply all_in_incl in Hincl. congruence.
Qed.

Lemma same_names_sym (a b : list string) : same_names a b = same_names b a.
Proof. unfold same_names. apply andb_comm. Qed.

Lemma same_names_trans_l (a b c : list string) :
  same_names a b = true -> same_names a c = same_names b c.
Proof.
  intros Hab. rewrite same_names_iff in Hab.
  destruct (same_names b c) eqn:Hbc.
  - rewrite same_names_iff in *. intros k. now rewrite Hab.
  - destruct (same_names a c) eqn:Hac; [|reflexivity].
    rewrite same_names_iff in Hac.
    assert (same_names b c = true).
    { apply same_names_iff. intros k. now rewrite <- Hab. }
    congruence.
Qed.

(** ** The loop of the grouper *)

Lemma loop_state_first (first : OutputRecord) :
  loop_state first [] =
  {| outputs := []; last_result := first;
     last_keys := fields_keys first; last_output := [dict_ first] |}.
Proof.
  unfold loop_state, group_step, group_init, keys_ne. simpl.
  now rewrite keys_eq_refl.
Qed.

Lemma loop_state_snoc (first : OutputRecord) (rest : list OutputRecord) (r : OutputRecord) :
  loop_state first (rest ++ [r]) = group_step (loop_state first rest) r.
Proof.
  unfold loop_state. now rewrite app_comm_cons, fold_left_app.
Qed.

Lemma group_step_same (st : GroupState) (r : OutputRecord) :
  keys_eq (fields_keys r) (last_keys st) = true ->
  group_step st r =
  {| outputs := outputs st; last_result := r;
     last_keys := last_keys st; last_output := last_output st ++ [dict_ r] |}.
Proof. intros H. unfold group_step, keys_ne. now rewrite H. Qed.

Lemma group_step_change (st : GroupState) (r : OutputRecord) :
  keys_eq (fields_keys r) (last_keys st) = false ->
  group_step st r =
  {| outputs := outputs st ++ [close_block st]; last_result := r;
     last_keys := fields_keys r; last_output := [dict_ r] |}.
Proof. intros H. unfold group_step, keys_ne. now rewrite H. Qed.

Lemma block_records_app (bs bs' : list Block) :
  block_records (bs ++ bs') = (block_records bs ++ block_records bs')%list.
Proof. unfold block_records. now rewrite fmap_app, concat_app. Qed.

Lemma block_records_one (b : Block) : block_records [b] = data b.
Proof. unfold block_records. simpl. apply app_nil_r. Qed.

Lemma block_ends_app (bs bs' : list Block) (base : nat) :
  block_ends base (bs ++ bs') =
  (block_ends base bs ++ block_ends (base + length (block_records bs)) bs')%list.
Proof.
  revert base. induction bs as [|b bs IH]; intros base; simpl.
  - now rewrite Nat.add_0_r.
  - rewrite IH. unfold block_records. simpl. rewrite length_app.
    now rewrite Nat.add_assoc.
Qed.

(** A block laid over [done] stays where it is when a record is added. *)
Lemma block_of_run_snoc (done : list OutputRecord) (r : OutputRecord) (b : Block) (e : nat) :
  block_of_run done b e -> block_of_run (done ++ [r]) b e.
Proof.
  intros [Hdata (x & Hx & Hflag)].
  assert (He : (e - 1 < length done)%nat) by (eapply lookup_lt_Some; eassumption).
  assert (Hn : (length (data b) <= length (drop (e - length (data b)) done))%nat).
  { rewrite Hdata at 1. rewrite length_fmap, length_take. lia. }
  split.
  - rewrite drop_app_le by lia. now rewrite take_app_le.
  - exists x. split; [|assumption]. now rewrite lookup_app_l.
Qed.

(** The block the loop closes covers the records up to the current one. *)
Lemma close_block_run (done : list OutputRecord) (st : GroupState) :
  loop_inv done st ->
  block_of_run done (close_block st)
    (length (block_records (outputs st)) + length (data (close_block st))).
Proof.
  intros [Hrec Hlast Hopen _ _ _]. simpl.
  assert (Hlen : (length (block_records (outputs st)) + length (last_output st)
                  = length done)%nat).
  { rewrite <- length_app, Hrec. apply length_fmap. }
  rewrite Hlen. split; simpl.
  - rewrite take_ge by (rewrite length_drop; lia).
    rewrite fmap_drop, <- Hrec.
    replace (length done - length (last_output st))%nat
      with (length (block_records (outputs st))) by lia.
    now rewrite drop_app_length.
  - exists (last_result st). split; [|reflexivity].
    rewrite last_lookup in Hlast.
    now replace (length done - 1)%nat with (pred (length done)) by lia.
Qed.

Lemma loop_inv_holds (first : OutputRecord) (rest : list OutputRecord) :
  loop_inv (first :: rest) (loop_state first rest).
Proof.
  induction rest as [|r rest IH] using rev_ind.
  - rewrite loop_state_first. split; simpl; try easy.
    apply keys_eq_refl.
  - rewrite loop_state_snoc, app_comm_cons.
    remember (loop_state first rest) as st eqn:Hst. clear Hst.
    remember (first :: rest) as done eqn:Hdone. clear Hdone.
    pose proof (close_block_run _ _ IH) as Hclose.
    destruct IH as [Hrec Hlast Hopen Hkeys Hne Hruns].
    destruct (keys_eq (fields_keys r) (last_keys st)) eqn:Hk.
    + rewrite group_step_same by assumption. split; simpl.
      * now rewrite app_assoc, Hrec, fmap_app.
      * apply last_snoc.
      * now destruct (last_output st).
      * assumption.
      * assumption.
      * eapply Forall2_impl; [eassumption|].
        intros b e. apply block_of_run_snoc.
    + rewrite group_step_change by assumption. split; simpl.
      * rewrite block_records_app, block_records_one. simpl.
        now rewrite fmap_app, <- Hrec.
      * apply last_snoc.
      * easy.
      * apply keys_eq_refl.
      * apply Forall_app. split; [assumption|]. now repeat constructor.
      * rewrite block_ends_app. simpl.
        apply Forall2_app.
        -- eapply Forall2_impl; [eassumption|].
           intros b e. apply block_of_run_snoc.
        -- constructor; [|constructor]. now apply block_of_run_snoc.
Qed.

(** ** Where the blocks start *)

Lemma changes_from_snoc (prev : list string) (i : nat)
    (l : list OutputRecord) (r : OutputRecord) :
  changes_from prev i (l ++ [r]) =
  (changes_from prev i l ++
   (if same_names (from_option fields_keys prev (last l)) (fields_keys r)
    then [] else [i + length l]%nat))%list.
Proof.
  revert prev i. induction l as [|x l IH]; intros prev i; simpl.
  - now rewrite app_nil_r, Nat.add_0_r.
  - rewrite IH, <- app_assoc. do 2 f_equal.
    rewrite last_cons, Nat.add_succ_r.
    now destruct (last l).
Qed.

Lemma loop_boundaries (first : OutputRecord) (rest : list OutputRecord) :
  Forall (fun r => NoDup (fields_keys r)) (first :: rest) ->
  block_ends 0 (outputs (loop_state first rest)) = shape_changes (first :: rest)
  /\ NoDup (last_keys (loop_state first rest)).
Proof.
  induction rest as [|r rest IH] using rev_ind; intros Hwf.
  - rewrite loop_state_first. simpl. split; [reflexivity|].
    now apply Forall_cons in Hwf as [H _].
  - rewrite app_comm_cons in Hwf. apply Forall_app in Hwf as [Hwf Hr].
    apply Forall_cons in Hr as [Hr _].
    destruct (IH Hwf) as [Hends Hnd]. clear IH.
    pose proof (loop_inv_holds first rest) as [Hrec Hlast _ Hkeys _ _].
    assert (Hlr : NoDup (fields_keys (last_result (loop_state first rest)))).
    { rewrite Forall_forall in Hwf. apply Hwf.
      now apply last_Some_elem_of. }
    assert (Hprev : from_option fields_keys (fields_keys first) (last rest)
                    = fields_keys (last_result (loop_state first rest))).
    { rewrite last_cons in Hlast. destruct (last rest); simpl; congruence. }
    assert (Hcmp : same_names (fields_keys (last_result (loop_state first rest)))
                     (fields_keys r)
                   = keys_eq (fields_keys r) (last_keys (loop_state first rest))).
    { rewrite keys_eq_same_names in Hkeys by assumption.
      rewrite (same_names_trans_l _ _ _ Hkeys), same_names_sym.
      symmetry. now apply keys_eq_same_names. }
    assert (Hlen : (length (block_records (outputs (loop_state first rest)))
                    + length (last_output (loop_state first rest))
                    = S (length rest))%nat).
    { rewrite <- length_app, Hrec, length_fmap. reflexivity. }
    rewrite loop_state_snoc.
    unfold shape_changes in *. rewrite changes_from_snoc, Hprev, Hcmp.
    destruct (keys_eq (fields_keys r) (last_keys (loop_state first rest))) eqn:Hk.
    + rewrite group_step_same by assumption. simpl.
      now rewrite app_nil_r.
    + rewrite group_step_change by assumption. simpl.
      rewrite block_ends_app. simpl. rewrite Hends, Hlen. easy.
Qed.

(** The guard after the loop, in terms of the last record. *)
Lemma group_finish_last (first : OutputRecord) (rest : list OutputRecord) (r : OutputRecord) :
  last (first :: rest) = Some r ->
  group_finish (loop_state first rest) =
  if nonempty (fields_keys r)
  then (outputs (loop_state first rest) ++ [close_block (loop_state first rest)])%list
  else outputs (loop_state first rest).
Proof.
  intros Hr.
  pose proof (loop_inv_holds first rest) as [_ Hlast Hopen Hkeys _ _].
  assert (r = last_result (loop_state first rest)) as -> by congruence.
  unfold group_finish, record_truthy. simpl.
  apply keys_eq_length in Hkeys.
  destruct (last_output (loop_state first rest)); [easy|].
  destruct (fields_keys _), (last_keys _); simpl in *; try discriminate; now rewrite ?andb_true_r.
Qed.

(** ** The result grouper: statements *)

(** C7. The grouper applied to an empty sequence of records returns an empty
    sequence of blocks, not a sequence holding one empty block. *)
Theorem convert_empty_results : convert_results_to_outputs [] = [].
Proof. reflexivity. Qed.

(** C9. Every block the grouper emits holds at least one record. *)
Theorem blocks_are_nonempty (results : list OutputRecord) :
  Forall (fun b => data b <> []) (convert_results_to_outputs results).
Proof.
  destruct results as [|first rest]; [constructor|].
  change (convert_results_to_outputs (first :: rest))
    with (group_finish (loop_state first rest)).
  pose proof (loop_inv_holds first rest) as [_ _ Hopen _ Hne _].
  unfold group_finish.
  destruct (_ && _); [|assumption].
  apply Forall_app. split; [assumption|].
  constructor; [exact Hopen | constructor].
Qed.

(** C5, as the code has it.  Every block the grouper emits holds the records
    of one contiguous run of the input, and its [no_table] flag is the
    [QueryOutputLine] class test of the last record of that run. *)
Theorem flag_is_class_of_last_record (results : list OutputRecord) :
  Forall2 (block_of_run results)
    (convert_results_to_outputs results)
    (block_ends 0 (convert_results_to_outputs results)).
Proof.
  destruct results as [|first rest]; [constructor|].
  change (convert_results_to_outputs (first :: rest))
    with (group_finish (loop_state first rest)).
  pose proof (loop_inv_holds first rest) as Hinv.
  pose proof (close_block_run _ _ Hinv) as Hclose.
  destruct Hinv as [_ _ _ _ _ Hruns].
  unfold group_finish.
  destruct (_ && _); [|assumption].
  rewrite block_ends_app. apply Forall2_app; [assumption|].
  simpl. constructor; [exact Hclose | constructor].
Qed.

(** C5 as stated fails: a run can mix a [QueryOutputLine] record with a
    record of another class that has the same field names; the block's flag
    then follows the last record and disagrees with the first. *)
Lemma flag_depends_on_record :
  ~ Forall2 (flag_of_any_record mixed_line_results)
      (convert_results_to_outputs mixed_line_results)
      (block_ends 0 (convert_results_to_outputs mixed_line_results)).
Proof.
  intros H. vm_compute in H.
  inversion H as [|b e bs es Hflag _]; subst.
  specialize (Hflag 0%nat (line_record AnnotationLine "note")).
  simpl in Hflag. discriminate Hflag; [lia | reflexivity].
Qed.

(** C1, as the code has it.  For every sequence of output records whose last
    record declares at least one field (the field names of a record being
    distinct, as the keys of a dict are), a block other than the first
    starts exactly at the indices where the field-name set of a record
    differs from that of the record before, and the records of all blocks,
    in order, are the input sequence. *)
Theorem grouper_boundaries_and_records (results : list OutputRecord) :
  Forall (fun r => NoDup (fields_keys r)) results ->
  (forall r, last results = Some r -> fields_keys r <> []) ->
  block_boundaries (convert_results_to_outputs results) = shape_changes results
  /\ block_records (convert_results_to_outputs results) = dict_ <$> results.
Proof.
  intros Hwf Hlastkeys.
  destruct results as [|first rest]; [easy|].
  change (convert_results_to_outputs (first :: rest))
    with (group_finish (loop_state first rest)).
  pose proof (loop_inv_holds first rest) as [Hrec Hlast _ _ _ _].
  destruct (loop_boundaries first rest Hwf) as [Hends _].
  rewrite (group_finish_last _ _ _ Hlast).
  specialize (Hlastkeys _ Hlast).
  destruct (fields_keys (last_result (loop_state first rest))); [easy|]. simpl.
  split.
  - unfold block_boundaries. rewrite block_ends_app. simpl.
    now rewrite removelast_last.
  - now rewrite block_records_app, block_records_one.
Qed.

Lemma grouper_boundaries_and_records_witness :
  block_boundaries (convert_results_to_outputs sample_results)
    = shape_changes sample_results
  /\ block_records (convert_results_to_outputs sample_results)
    = dict_ <$> sample_results.
Proof.
  apply (grouper_boundaries_and_records sample_results).
  - solve_nodup.
  - intros r Hr. vm_compute in Hr. injection Hr as <-. discriminate.
Defined.

(** C1 as stated fails: when the last run consists of records without any
    field, the guard after the loop skips the final block and the records of
    that run are missing from the blocks. *)
Lemma fieldless_final_run_is_dropped :
  convert_results_to_outputs [comment_record "first"; fieldless_record]
    = [{| columns := ["comment"]; data := [dict_ (comment_record "first")];
          no_table := false |}]
  /\ block_records (convert_results_to_outputs [comment_record "first"; fieldless_record])
     <> dict_ <$> [comment_record "first"; fieldless_record].
Proof. split; [reflexivity | discriminate]. Qed.

(** C4, as the code has it.  The comparison that drives the block boundaries
    holds between two records exactly when their field names are the same
    set ([same_names], see [same_names_iff]), whatever the order; two
    consecutive records whose field names are the same set stay in one
    block, also when the order differs, and start a new block otherwise. *)
Theorem shape_equality_is_set_equality (r1 r2 : OutputRecord) :
  NoDup (fields_keys r1) ->
  NoDup (fields_keys r2) ->
  keys_ne (fields_keys r2) (fields_keys r1)
    = negb (same_names (fields_keys r1) (fields_keys r2))
  /\ convert_results_to_outputs [r1; r2] =
     if same_names (fields_keys r1) (fields_keys r2) then
       if nonempty (fields_keys r1) then
         [{| columns := fields_keys r1; data := [dict_ r1; dict_ r2];
             no_table := isinstance_QueryOutputLine r2 |}]
       else []
     else
       {| columns := fields_keys r1; data := [dict_ r1];
          no_table := isinstance_QueryOutputLine r1 |}
       :: (if nonempty (fields_keys r2) then
             [{| columns := fields_keys r2; data := [dict_ r2];
                 no_table := isinstance_QueryOutputLine r2 |}]
           else []).
Proof.
  intros H1 H2.
  assert (Hcmp : keys_eq (fields_keys r2) (fields_keys r1)
                 = same_names (fields_keys r1) (fields_keys r2)).
  { rewrite keys_eq_same_names by assumption. apply same_names_sym. }
  split; [unfold keys_ne; now rewrite Hcmp|].
  change (convert_results_to_outputs [r1; r2])
    with (group_finish (loop_state r1 ([] ++ [r2]))).
  rewrite loop_state_snoc, loop_state_first. rewrite <- Hcmp.
  destruct (keys_eq (fields_keys r2) (fields_keys r1)) eqn:Hk.
  - rewrite group_step_same by exact Hk.
    unfold group_finish, close_block, record_truthy. simpl.
    now destruct (fields_keys r1).
  - rewrite group_step_change by exact Hk.
    unfold group_finish, close_block, record_truthy. simpl.
    now destruct (fields_keys r2).
Qed.

Lemma shape_equality_is_set_equality_witness :
  keys_ne (fields_keys track_artist_record) (fields_keys artist_track_record) = false
  /\ convert_results_to_outputs [artist_track_record; track_artist_record] =
     [{| columns := ["artist_name"; "track_name"];
         data := [dict_ artist_track_record; dict_ track_artist_record];
         no_table := false |}].
Proof.
  apply (shape_equality_is_set_equality artist_track_record track_artist_record);
    solve_nodup.
Defined.

(** C4 as stated fails: two records whose field names are the same set in a
    different order compare equal in shape and share one block. *)
Lemma reordered_fields_share_a_block :
  fields_keys artist_track_record <> fields_keys track_artist_record
  /\ keys_eq (fields_keys track_artist_record) (fields_keys artist_track_record) = true
  /\ convert_results_to_outputs [artist_track_record; track_artist_record] =
     [{| columns := ["artist_name"; "track_name"];
         data := [dict_ artist_track_record; dict_ track_artist_record];
         no_table := false |}].
Proof. split; [discriminate | split; reflexivity]. Qed.

(** ** Running programs *)

Lemma bind_ok {A B : Type} (m : Prog A) (f : A -> Prog B) (w w' : World) (a : A) :
  m w = (inr a, w') -> bind m f w = f a w'.
Proof. intros H. unfold bind. now rewrite H. Qed.

Lemma bind_err {A B : Type} (m : Prog A) (f : A -> Prog B) (w w' : World) (e : exn) :
  m w = (inl e, w') -> bind m f w = (inl e, w').
Proof. intros H. unfold bind. now rewrite H. Qed.

Lemma fetch_query_hosted (w : World) (request : Request) (query : Query) :
  hosted w request query ->
  fetch_query (path request) w = (inr (Some query, ""), w).
Proof. unfold hosted, fetch_query. now intros ->. Qed.

Lemma int_ok (text : string) (z : Z) (w : World) :
  py_int text = Some z -> int_ text w = (inr z, w).
Proof. unfold int_. now intros ->. Qed.



(** A request whose path names the slug of the one registered query. *)
Lemma hosted_world_with (query : Query) (request : Request) :
  setup query = None ->
  before_slash (drop_first (path request)) = fst (names query) ->
  hosted (world_with query) request query.
Proof.
  intros Hsetup Hslug.
  unfold hosted, world_with, register_query, call_setup, registry_set,
    add_url_rule, bind, emit, ret.
  rewrite Hsetup, Hslug. destruct (names query) as [slug name]. simpl.
  apply lookup_insert_eq.
Qed.

Lemma pair_with_snd {A B : Type} (p : A * B) (a : A) : fst p = a -> p = (a, snd p).
Proof. intros <-. now destruct p. Qed.

(** Closes [hosted] for a sample request to a sample process. *)
Ltac solve_hosted := apply hosted_world_with; reflexivity.

(** ** Pagination parameters on the single-input paths *)




(** ** What a program logs *)

Lemma only_events_ret {A : Type} (kind : Event -> bool) (a : A) :
  only_events kind (ret a).
Proof.
  intros w. simpl. repeat split. exists []. split; [|reflexivity].
  unfold events_since. now rewrite app_nil_r.
Qed.

Lemma only_events_raise {A : Type} (kind : Event -> bool) (e : exn) :
  only_events kind (raise (A := A) e).
Proof.
  intros w. simpl. repeat split. exists []. split; [|reflexivity].
  unfold events_since. now rewrite app_nil_r.
Qed.

Lemma only_events_lift {A : Type} (kind : Event -> bool) (r : exn + A) :
  only_events kind (lift r).
Proof. destruct r; [apply only_events_raise | apply only_events_ret]. Qed.

Lemma only_events_emit (kind : Event -> bool) (ev : Event) :
  kind ev = true -> only_events kind (emit ev).
Proof.
  intros Hev w. simpl. repeat split. exists [ev]. split; [reflexivity|].
  simpl. now rewrite Hev.
Qed.

Lemma only_events_seq {A : Type} (kind : Event -> bool) (w w1 w2 : World) :
  (registered_queries w1 = registered_queries w
   /\ url_rules w1 = url_rules w
   /\ exists evs, events_since w w1 evs /\ forallb kind evs = true) ->
  (registered_queries w2 = registered_queries w1
   /\ url_rules w2 = url_rules w1
   /\ exists evs, events_since w1 w2 evs /\ forallb kind evs = true) ->
  registered_queries w2 = registered_queries w
  /\ url_rules w2 = url_rules w
  /\ exists evs, events_since w w2 evs /\ forallb kind evs = true.
Proof.
  intros (Hq1 & Hu1 & evs1 & He1 & Hk1) (Hq2 & Hu2 & evs2 & He2 & Hk2).
  repeat split; [congruence | congruence |].
  exists (evs1 ++ evs2)%list. split.
  - unfold events_since in *. now rewrite He2, He1, app_assoc.
  - rewrite forallb_app. now rewrite Hk1, Hk2.
Qed.

Lemma only_events_bind {A B : Type} (kind : Event -> bool)
    (m : Prog A) (f : A -> Prog B) :
  only_events kind m -> (forall a, only_events kind (f a)) ->
  only_events kind (bind m f).
Proof.
  intros Hm Hf w. specialize (Hm w). unfold bind.
  destruct (m w) as [[e|a] w1]; simpl in *; [exact Hm|].
  eapply (only_events_seq (A := A)); [exact Hm | apply Hf].
Qed.

Lemma only_events_try {A : Type} (kind : Event -> bool)
    (m : Prog A) (handler : exn -> Prog A) :
  only_events kind m -> (forall e, only_events kind (handler e)) ->
  only_events kind (try_except m handler).
Proof.
  intros Hm Hh w. specialize (Hm w). unfold try_except.
  destruct (m w) as [[e|a] w1]; simpl in *; [|exact Hm].
  eapply (only_events_seq (A := A)); [exact Hm | apply Hh].
Qed.

Lemma call_input_model_events (input_model : InputModel) (kwargs : list (string * pyobj)) :
  only_events is_input_model (call_input_model input_model kwargs).
Proof.
  unfold call_input_model. apply only_events_bind.
  - now apply only_events_emit.
  - intros _. apply only_events_lift.
Qed.

Lemma bind_items_events (input_model : InputModel) (items : list pyobj) (acc : list Input) :
  only_events is_input_model (bind_items input_model items acc).
Proof.
  revert acc. induction items as [|item items IH]; intros acc; simpl.
  - apply only_events_ret.
  - apply only_events_bind; [apply only_events_lift|]. intros kwargs.
    apply only_events_bind; [apply call_input_model_events|]. intros inp.
    apply IH.
Qed.

Lemma bind_body_events (input_model : InputModel) (request : Request) :
  only_events is_input_model (bind_body input_model request).
Proof.
  unfold bind_body. apply only_events_try.
  - apply only_events_bind; [apply only_events_lift|]. intros body.
    apply only_events_bind; [apply only_events_lift|]. intros items.
    apply bind_items_events.
  - intros e. apply only_events_raise.
Qed.

(** The [except] clause turns whatever the loop raises into a bad request. *)
Lemma bind_body_raises (input_model : InputModel) (request : Request)
    (w w' : World) (e : exn) :
  bind_body input_model request w = (inl e, w') ->
  exists msg, e = BadRequest msg.
Proof.
  unfold bind_body, try_except.
  destruct (bind _ _ w) as [[e0|ins] w0]; [|discriminate].
  unfold raise. intros [= <- _]. now eexists.
Qed.

(** ** Batch binding on the POST path *)

Lemma bind_items_invalid (input_model : InputModel) (raws : list (list (string * pyobj)))
    (acc : list Input) (w : World) :
  Exists (fun kwargs => exists e, im_validate input_model kwargs = inl e) raws ->
  exists e w', bind_items input_model (PyDict <$> raws) acc w = (inl e, w').
Proof.
  revert acc w. induction raws as [|kwargs raws IH]; intros acc w Hbad.
  - now apply Exists_nil in Hbad.
  - simpl. unfold call_input_model, bind, ret, emit. simpl.
    destruct (im_validate input_model kwargs) as [e|inp] eqn:Hv;
      unfold lift, raise, ret.
    + eauto.
    + apply Exists_cons in Hbad as [(e & He) | Hbad]; [congruence|].
      now apply IH.
Qed.

Lemma input_model_events_no_fetch (evs : list Event) :
  forallb is_input_model evs = true -> existsb is_fetch evs = false.
Proof.
  induction evs as [|ev evs IH]; [reflexivity|].
  simpl. intros Hkind. apply andb_true_iff in Hkind as [Hev Hkind].
  rewrite (IH Hkind). now destruct ev.
Qed.

(** C2. On the machine POST path, when the body is a list of raw input
    mappings and one of them fails to validate against the query's input
    model, the whole request fails with one bad-request error: no list of
    inputs comes out of the binding, and [fetch] is not called (the only
    calls made are calls of the input model). *)
Theorem batch_binding_is_all_or_nothing (request : Request) (w : World)
    (query : Query) (raws : list (list (string * pyobj))) :
  hosted w request query ->
  json request = inr (PyList (PyDict <$> raws)) ->
  Exists (fun kwargs => exists e, im_validate (inputs query) kwargs = inl e) raws ->
  exists msg w',
    json_query_handler_post request w = (inl (BadRequest msg), w')
    /\ registered_queries w' = registered_queries w
    /\ exists evs, events_since w w' evs
                   /\ forallb is_input_model evs = true
                   /\ existsb is_fetch evs = false.
Proof.
  intros Hq Hjson Hbad.
  pose proof (bind_body_events (inputs query) request w) as (Hreg & _ & evs & Hevs & Hkind).
  assert (Hbody : exists msg w',
             bind_body (inputs query) request w = (inl (BadRequest msg), w')).
  { unfold bind_body, try_except. rewrite Hjson.
    unfold lift at 1. unfold bind at 1, ret at 1.
    unfold iter_json, lift at 1. unfold bind at 1, ret at 1.
    destruct (bind_items_invalid (inputs query) raws [] w Hbad) as (e & w' & ->).
    unfold raise. eauto. }
  destruct Hbody as (msg & w' & Hbody). rewrite Hbody in *. simpl in *.
  exists msg, w'. split; [|split; [assumption|]].
  - unfold json_query_handler_post.
    rewrite (bind_ok _ _ _ _ _ (fetch_query_hosted _ _ _ Hq)). cbn [str_truthy].
    unfold the_query. unfold bind at 1, ret at 1.
    now rewrite (bind_err _ _ _ _ _ Hbody).
  - exists evs. repeat split; try assumption.
    now apply input_model_events_no_fetch.
Qed.

Lemma batch_binding_is_all_or_nothing_witness :
  exists msg w',
    json_query_handler_post mixed_batch_request example_world = (inl (BadRequest msg), w')
    /\ registered_queries w' = registered_queries example_world
    /\ exists evs, events_since example_world w' evs
                   /\ forallb is_input_model evs = true
                   /\ existsb is_fetch evs = false.
Proof.
  apply (batch_binding_is_all_or_nothing mixed_batch_request example_world
           example_query mixed_batch).
  - solve_hosted.
  - reflexivity.
  - apply Exists_cons_tl, Exists_cons_hd. eexists. vm_compute. reflexivity.
Defined.

(** ** Pagination parameters that are not integers *)





(** ** Failures of [fetch] on the machine paths *)

(** On the machine GET path a failure of [fetch] is reported to the error
    tracker, printed, and answered with an empty JSON object and status
    500. *)
Lemma get_fetch_failure_is_500 (request : Request) (w : World) (query : Query)
    (o c : Z) (inp : Input) (err : exn) :
  hosted w request query ->
  py_int (args_get (args request) "offset" "-1") = Some o ->
  py_int (args_get (args request) "count" "-1") = Some c ->
  o < 0 -> c < 0 ->
  im_validate (inputs query) (args_kwargs (args request) []) = inr inp ->
  fetch query [inp] json_get None = inl err ->
  exists w',
    json_query_handler_get request w = (inr (Jsonify (PyDict []) 500), w')
    /\ events_since w w'
         [EvInputModel (args_kwargs (args request) []);
          EvFetch [inp] json_get None; EvCapture err; EvPrint (format_exc err)].
Proof.
  intros Hq Ho Hc Hneg_o Hneg_c Hv Hf.
  assert (Hcheck : (0 <=? o) || (0 <=? c) = false).
  { apply orb_false_iff. split; apply Z.leb_gt; assumption. }
  unfold json_query_handler_get.
  rewrite (bind_ok _ _ _ _ _ (fetch_query_hosted _ _ _ Hq)). cbn [str_truthy].
  rewrite (bind_ok _ _ _ _ _ (int_ok _ _ w Ho)).
  rewrite (bind_ok _ _ _ _ _ (int_ok _ _ w Hc)).
  rewrite Hcheck.
  unfold the_query, call_input_model, call_fetch, capture_exception, print,
    jsonify, try_except, bind, ret, emit, lift, raise. simpl.
  rewrite Hv. simpl. rewrite Hf. simpl.
  eexists. split; [reflexivity|].
  unfold events_since. simpl. now rewrite <- !app_assoc.
Qed.

(** C6, what the code does on the machine POST path.  When [fetch] raises
    [err], the handler reports and prints it and then hands the exception
    object itself to [jsonify]; the JSON provider has no encoder for it, so
    the [except] block raises [TypeError] and no response with status 400
    is returned. *)
Theorem post_fetch_failure_raises (request : Request) (w w1 : World) (query : Query)
    (ins : list Input) (o c : Z) (err : exn) :
  hosted w request query ->
  bind_body (inputs query) request w = (inr ins, w1) ->
  py_int (args_get (args request) "offset" "0") = Some o ->
  py_int (args_get (args request) "count" DEFAULT_QUERY_RESULT_SIZE_str) = Some c ->
  fetch query ins json_post (Some (o, c)) = inl err ->
  exists w',
    json_query_handler_post request w =
      (inl (PyError "TypeError"
              ("Object of type " ++ exn_class err ++ " is not JSON serializable")),
       w')
    /\ events_since w1 w'
         [EvFetch ins json_post (Some (o, c)); EvCapture err;
          EvPrint (format_exc err)].
Proof.
  intros Hq Hbody Ho Hc Hf.
  unfold json_query_handler_post.
  rewrite (bind_ok _ _ _ _ _ (fetch_query_hosted _ _ _ Hq)). cbn [str_truthy].
  unfold the_query. unfold bind at 1, ret at 1.
  rewrite (bind_ok _ _ _ _ _ Hbody).
  rewrite (bind_ok _ _ _ _ _ (int_ok _ _ w1 Ho)).
  rewrite (bind_ok _ _ _ _ _ (int_ok _ _ w1 Hc)).
  unfold call_fetch, capture_exception, print, jsonify, try_except, bind, ret,
    emit, lift, raise. simpl.
  rewrite Hf. simpl.
  eexists. split; [reflexivity|].
  unfold events_since. simpl. now rewrite <- !app_assoc.
Qed.

Lemma post_fetch_failure_raises_witness :
  exists w',
    json_query_handler_post broken_post_request broken_world =
      (inl (PyError "TypeError"
              "Object of type FileNotFoundError is not JSON serializable"),
       w')
    /\ events_since (snd (bind_body ExampleInput broken_post_request broken_world)) w'
         [EvFetch [[("number", PyInt 1); ("num_lines", PyInt 2)]] json_post
            (Some (0, 100));
          EvCapture missing_file; EvPrint (format_exc missing_file)].
Proof.
  apply (post_fetch_failure_raises broken_post_request broken_world
           (snd (bind_body ExampleInput broken_post_request broken_world))
           (FailingQuery missing_file)
           [[("number", PyInt 1); ("num_lines", PyInt 2)]] 0 100 missing_file).
  - solve_hosted.
  - apply pair_with_snd. vm_compute. reflexivity.
  - reflexivity.
  - reflexivity.
  - reflexivity.
Defined.

(** The same failure on the machine GET path, for comparison. *)
Example get_fetch_failure_sample :
  fst (json_query_handler_get broken_get_request broken_world)
  = inr (Jsonify (PyDict []) 500).
Proof. vm_compute. reflexivity. Qed.

(** ** Registration *)

(** C8. [register_query] calls the query's [setup] once, before it touches
    the registry or installs a route.  When [setup] raises, the exception
    leaves [register_query] at once: the registry and the routes are as they
    were, so a path resolves afterwards exactly as it did before.  When
    [setup] returns, the query is stored under its slug and the two routes
    are installed, in that order. *)
Theorem register_query_runs_setup_first (query : Query) (w : World) :
  let slug := fst (names query) in
  match setup query with
  | Some e =>
      exists w',
        register_query query w = (inl e, w')
        /\ registered_queries w' = registered_queries w
        /\ url_rules w' = url_rules w
        /\ events_since w w' [EvSetup slug]
        /\ forall url_path, fst (fetch_query url_path w') = fst (fetch_query url_path w)
  | None =>
      exists w',
        register_query query w = (inr tt, w')
        /\ registered_queries w' = <[slug := query]> (registered_queries w)
        /\ events_since w w'
             [EvSetup slug; EvRegistrySet slug;
              EvAddUrlRule {| rule := "/" ++ slug; endpoint := slug;
                              view_func := view_web_query_handler;
                              methods := None |};
              EvAddUrlRule {| rule := "/" ++ slug ++ "/json";
                              endpoint := slug ++ "_json";
                              view_func := view_json_query_handler;
                              methods := Some ["GET"; "POST"; "OPTIONS"] |}]
  end.
Proof.
  intros slug. subst slug.
  unfold register_query, call_setup, registry_set, add_url_rule, bind, emit, ret, raise.
  destruct query as [su [slug name] intro im fe]. simpl.
  destruct su as [e|]; simpl.
  - eexists. split; [reflexivity|]. simpl. repeat split.
    intros url_path. unfold fetch_query. simpl.
    now destruct (registered_queries w !! _).
  - eexists. split; [reflexivity|]. simpl. split; [reflexivity|].
    unfold events_since. simpl. now rewrite <- !app_assoc.
Qed.

(** Registering a query whose [setup] raises leaves its slug unknown. *)
Example register_unset_query :
  fst (register_query unset_query example_world) = inl missing_file
  /\ fst (fetch_query "/unset" (snd (register_query unset_query example_world)))
     = inr (None, "Requested query 'unset' not hosted on this site.")
  /\ url_rules (snd (register_query unset_query example_world))
     = url_rules example_world.
Proof. vm_compute. repeat split. Qed.

(** [py_int] on texts a client can send: a file separator is not white
    space, digits and white space of other scripts are read, a sign needs
    its digits, and a literal of more than [MAX_STR_DIGITS] digits is
    refused. *)
Example py_int_samples :
  py_int (String (ascii_of_nat 28) "5") = None
  /\ py_int "٣" = Some 3
  /\ py_int (String (ascii_of_nat 194) (String (ascii_of_nat 160) "5")) = Some 5
  /\ py_int " +1_000 " = Some 1000
  /\ py_int "-" = None
  /\ py_int (string_of_list_ascii (List.repeat "1"%char 4301)) = None
  /\ py_int (string_of_list_ascii (List.repeat "0"%char 4300)) = Some 0.
Proof. vm_compute. repeat split. Qed.

(** The default [count] of the POST path is the text of
    [DEFAULT_QUERY_RESULT_SIZE]. *)
Lemma default_count_value :
  py_int DEFAULT_QUERY_RESULT_SIZE_str = Some DEFAULT_QUERY_RESULT_SIZE.
Proof. reflexivity. Qed.

(** * Further properties *)

(** ** The grouper on one shape, on mixed flags and on joined streams *)

Lemma loop_state_one_shape (first : OutputRecord) (rest : list OutputRecord) :
  Forall (fun r => keys_eq (fields_keys r) (fields_keys first) = true) rest ->
  loop_state first rest =
  {| outputs := []; last_result := default first (last rest);
     last_keys := fields_keys first; last_output := dict_ <$> first :: rest |}.
Proof.
  induction rest as [|r rest IH] using rev_ind; intros Hsame.
  - apply loop_state_first.
  - apply Forall_app in Hsame as [Hrest Hr]. apply Forall_cons in Hr as [Hr _].
    rewrite loop_state_snoc, (IH Hrest), group_step_same by exact Hr.
    simpl. rewrite last_snoc, fmap_app. reflexivity.
Qed.

(** X1. A sequence of records that all compare equal in shape to the first
    one (as the records of one model class do), the first having at least
    one field, gives exactly one block: its columns are the field names of
    the first record, its data are all the records in order, its flag is
    the class test of the last record. *)
Theorem one_shape_one_block (first : OutputRecord) (rest : list OutputRecord) :
  Forall (fun r => keys_eq (fields_keys r) (fields_keys first) = true) rest ->
  fields_keys first <> [] ->
  convert_results_to_outputs (first :: rest) =
  [{| columns := fields_keys first;
      data := dict_ <$> first :: rest;
      no_table := isinstance_QueryOutputLine (default first (last rest)) |}].
Proof.
  intros Hsame Hne.
  change (convert_results_to_outputs (first :: rest))
    with (group_finish (loop_state first rest)).
  rewrite (loop_state_one_shape _ _ Hsame).
  unfold group_finish, close_block, record_truthy. simpl.
  now destruct (fields_keys first).
Qed.

Lemma one_shape_one_block_witness :
  convert_results_to_outputs row_results =
  [{| columns := fields_keys (data_record "a" "t1" 100);
      data := dict_ <$> row_results;
      no_table := false |}].
Proof.
  apply (one_shape_one_block (data_record "a" "t1" 100) [data_record "b" "t2" 200]).
  - repeat constructor.
  - discriminate.
Defined.

Lemma run_inv_holds (first : OutputRecord) (rest : list OutputRecord) :
  run_inv (first :: rest) (loop_state first rest).
Proof.
  induction rest as [|r rest IH] using rev_ind.
  - rewrite loop_state_first. exists [], [first], first. simpl.
    repeat split. repeat constructor. apply keys_eq_refl.
  - rewrite loop_state_snoc, app_comm_cons.
    remember (loop_state first rest) as st eqn:Hst. clear Hst.
    remember (first :: rest) as done eqn:Hdone. clear Hdone.
    destruct IH as (pre & run & r0 & -> & Hhd & Hkeys & Hpre & Hrun & Hall).
    destruct (keys_eq (fields_keys r) (last_keys st)) eqn:Hk.
    + rewrite group_step_same by assumption.
      exists pre, (run ++ [r])%list, r0. simpl. repeat split.
      * now rewrite app_assoc.
      * destruct run; [discriminate | exact Hhd].
      * assumption.
      * assumption.
      * now rewrite Hrun, fmap_app.
      * apply Forall_app. split; [assumption | now repeat constructor].
    + rewrite group_step_change by assumption.
      exists (pre ++ run)%list, [r], r. simpl. repeat split.
      * rewrite block_records_app, block_records_one. simpl.
        now rewrite Hpre, Hrun, fmap_app.
      * repeat constructor. apply keys_eq_refl.
Qed.

(** X2. The grouper never reorders or repeats a record, and the only
    records it can leave out are the records of a last run whose models
    declare no field: the input splits into a kept part, which the blocks
    hold in order, and a dropped part in which no record has a field. *)
Theorem only_fieldless_tail_is_dropped (results : list OutputRecord) :
  exists kept dropped : list OutputRecord,
    results = (kept ++ dropped)%list
    /\ block_records (convert_results_to_outputs results) = dict_ <$> kept
    /\ Forall (fun r => fields_keys r = []) dropped.
Proof.
  destruct results as [|first rest].
  { exists [], []. repeat split. constructor. }
  change (convert_results_to_outputs (first :: rest))
    with (group_finish (loop_state first rest)).
  destruct (run_inv_holds first rest)
    as (pre & run & r0 & Hdone & _ & _ & Hpre & Hrun & Hall).
  unfold group_finish, record_truthy. simpl.
  destruct (last_keys (loop_state first rest)) as [|k ks] eqn:Hkeys; simpl.
  - exists pre, run. repeat split; try assumption.
    eapply Forall_impl; [exact Hall|]. intros r Hr. simpl in Hr.
    apply keys_eq_length in Hr. now destruct (fields_keys r).
  - destruct (last_output (loop_state first rest)) as [|d ds] eqn:Hout; simpl.
    + destruct run; [|discriminate]. exists pre, []. repeat split; [assumption..|constructor].
    + exists (pre ++ run)%list, []. repeat split.
      * now rewrite app_nil_r.
      * rewrite block_records_app, block_records_one. simpl.
        now rewrite Hpre, Hout, Hrun, fmap_app.
      * constructor.
Qed.

Lemma block_columns_snoc (done : list OutputRecord) (r : OutputRecord) (b : Block) (e : nat) :
  block_columns done b e -> block_columns (done ++ [r]) b e.
Proof.
  intros (x & Hx & Hcols). exists x. split; [|assumption].
  rewrite lookup_app_l; [assumption|]. eapply lookup_lt_Some; eassumption.
Qed.

(** The block the loop closes starts at the first record of the open run. *)
Lemma close_block_columns (done : list OutputRecord) (st : GroupState) :
  run_inv done st ->
  block_columns done (close_block st)
    (length (block_records (outputs st)) + length (data (close_block st))).
Proof.
  intros (pre & run & r0 & -> & Hhd & Hkeys & Hpre & Hrun & _).
  exists r0. split; [|assumption].
  change (data (close_block st)) with (last_output st).
  replace (length (block_records (outputs st)) + length (last_output st)
           - length (last_output st))%nat
    with (length pre) by (rewrite Hpre, length_fmap; lia).
  rewrite lookup_app_r by lia. rewrite Nat.sub_diag.
  now destruct run.
Qed.

Lemma loop_columns (first : OutputRecord) (rest : list OutputRecord) :
  Forall2 (block_columns (first :: rest))
    (outputs (loop_state first rest))
    (block_ends 0 (outputs (loop_state first rest))).
Proof.
  induction rest as [|r rest IH] using rev_ind.
  - rewrite loop_state_first. constructor.
  - pose proof (close_block_columns _ _ (run_inv_holds first rest)) as Hclose.
    rewrite loop_state_snoc, app_comm_cons.
    remember (loop_state first rest) as st eqn:Hst. clear Hst.
    remember (first :: rest) as done eqn:Hdone. clear Hdone.
    destruct (keys_eq (fields_keys r) (last_keys st)) eqn:Hk.
    + rewrite group_step_same by assumption. simpl.
      eapply Forall2_impl; [eassumption|].
      intros b e. apply block_columns_snoc.
    + rewrite group_step_change by assumption. simpl.
      rewrite block_ends_app. apply Forall2_app.
      * eapply Forall2_impl; [eassumption|].
        intros b e. apply block_columns_snoc.
      * simpl. constructor; [|constructor]. now apply block_columns_snoc.
Qed.

(** X3. The columns of every block the grouper emits are the field names,
    in declaration order, of the first record of the block's run. *)
Theorem columns_come_from_first_record (results : list OutputRecord) :
  Forall2 (block_columns results)
    (convert_results_to_outputs results)
    (block_ends 0 (convert_results_to_outputs results)).
Proof.
  destruct results as [|first rest]; [constructor|].
  change (convert_results_to_outputs (first :: rest))
    with (group_finish (loop_state first rest)).
  pose proof (close_block_columns _ _ (run_inv_holds first rest)) as Hclose.
  pose proof (loop_columns first rest) as Hcols.
  unfold group_finish.
  destruct (_ && _); [|assumption].
  rewrite block_ends_app. apply Forall2_app; [assumption|].
  simpl. constructor; [exact Hclose | constructor].
Qed.

Lemma loop_flags (v : bool) (first : OutputRecord) (rest : list OutputRecord) :
  Forall (fun r => isinstance_QueryOutputLine r = v) (first :: rest) ->
  Forall (fun b => no_table b = v) (outputs (loop_state first rest))
  /\ isinstance_QueryOutputLine (last_result (loop_state first rest)) = v.
Proof.
  induction rest as [|r rest IH] using rev_ind; intros Hall.
  - rewrite loop_state_first. simpl. split; [constructor|].
    now apply Forall_cons in Hall as [H _].
  - rewrite app_comm_cons in Hall. apply Forall_app in Hall as [Hall Hr].
    apply Forall_cons in Hr as [Hr _].
    destruct (IH Hall) as [Hout Hlast].
    rewrite loop_state_snoc.
    destruct (keys_eq (fields_keys r) (last_keys (loop_state first rest))) eqn:Hk.
    + rewrite group_step_same by assumption. now split.
    + rewrite group_step_change by assumption. simpl. split; [|assumption].
      apply Forall_app. split; [assumption|]. now repeat constructor.
Qed.

(** X4. When every record gives the same answer [v] to the
    [QueryOutputLine] class test, every block carries [v] as its
    [no_table] flag; in particular a stream without [QueryOutputLine]
    records, like that of the example query, never yields a free-form
    block. *)
Theorem uniform_class_uniform_flag (v : bool) (results : list OutputRecord) :
  Forall (fun r => isinstance_QueryOutputLine r = v) results ->
  Forall (fun b => no_table b = v) (convert_results_to_outputs results).
Proof.
  intros Hall. destruct results as [|first rest]; [constructor|].
  change (convert_results_to_outputs (first :: rest))
    with (group_finish (loop_state first rest)).
  destruct (loop_flags v first rest Hall) as [Hout Hlast].
  unfold group_finish.
  destruct (_ && _); [|assumption].
  apply Forall_app. split; [assumption|]. now repeat constructor.
Qed.

Lemma uniform_class_uniform_flag_witness :
  Forall (fun b => no_table b = false) (convert_results_to_outputs sample_results).
Proof.
  apply (uniform_class_uniform_flag false sample_results).
  repeat constructor.
Defined.

(** ** Joining two streams *)

Lemma group_step_with_outputs (pre : list Block) (st : GroupState) (r : OutputRecord) :
  group_step (with_outputs pre st) r = with_outputs pre (group_step st r).
Proof.
  unfold group_step, with_outputs, close_block. simpl.
  destruct (keys_ne (fields_keys r) (last_keys st)); simpl; [|reflexivity].
  now rewrite app_assoc.
Qed.

Lemma fold_with_outputs (pre : list Block) (rs : list OutputRecord) (st : GroupState) :
  fold_left group_step rs (with_outputs pre st)
  = with_outputs pre (fold_left group_step rs st).
Proof.
  revert st. induction rs as [|r rs IH]; intros st; simpl; [reflexivity|].
  now rewrite group_step_with_outputs, IH.
Qed.

Lemma group_finish_with_outputs (pre : list Block) (st : GroupState) :
  group_finish (with_outputs pre st) = (pre ++ group_finish st)%list.
Proof.
  unfold group_finish, with_outputs, close_block. simpl.
  destruct (_ && _); [|reflexivity]. now rewrite app_assoc.
Qed.

(** X5. Grouping distributes over joining two streams at a change of shape:
    when the last record of [xs] has at least one field and the first
    record [y] of the second stream has a different field-name set, the
    blocks of the joined stream are the blocks of [xs] followed by the
    blocks of the second stream. *)
Theorem convert_app_at_change (xs ys : list OutputRecord) (x y : OutputRecord) :
  Forall (fun r => NoDup (fields_keys r)) xs ->
  NoDup (fields_keys y) ->
  last xs = Some x ->
  fields_keys x <> [] ->
  same_names (fields_keys x) (fields_keys y) = false ->
  convert_results_to_outputs (xs ++ y :: ys)
  = (convert_results_to_outputs xs ++ convert_results_to_outputs (y :: ys))%list.
Proof.
  intros Hwf Hy Hlast Hne Hdiff.
  destruct xs as [|first rest]; [discriminate|].
  change (convert_results_to_outputs ((first :: rest) ++ y :: ys))
    with (group_finish
            (fold_left group_step ((first :: rest) ++ y :: ys) (group_init first))).
  rewrite fold_left_app. fold (loop_state first rest).
  change (convert_results_to_outputs (first :: rest))
    with (group_finish (loop_state first rest)).
  change (convert_results_to_outputs (y :: ys))
    with (group_finish (fold_left group_step ys (loop_state y []))).
  rewrite (group_finish_last _ _ _ Hlast).
  pose proof (loop_inv_holds first rest) as [_ Hlast' _ Hkeys _ _].
  assert (x = last_result (loop_state first rest)) as Hx by congruence.
  destruct (loop_boundaries first rest Hwf) as [_ Hnd].
  assert (Hk : keys_eq (fields_keys y) (last_keys (loop_state first rest)) = false).
  { rewrite keys_eq_same_names by assumption.
    rewrite keys_eq_same_names in Hkeys
      by (try assumption; rewrite Forall_forall in Hwf; apply Hwf;
          now apply last_Some_elem_of).
    rewrite same_names_sym, <- (same_names_trans_l _ _ _ Hkeys).
    now rewrite <- Hx. }
  destruct (fields_keys x); [easy|]. simpl.
  rewrite group_step_change by exact Hk.
  rewrite loop_state_first.
  set (pre := (outputs (loop_state first rest)
               ++ [close_block (loop_state first rest)])%list).
  assert (Hpre : {| outputs := pre; last_result := y; last_keys := fields_keys y;
                    last_output := [dict_ y] |}
                 = with_outputs pre
                     {| outputs := []; last_result := y; last_keys := fields_keys y;
                        last_output := [dict_ y] |}).
  { unfold with_outputs. simpl. now rewrite app_nil_r. }
  now rewrite Hpre, fold_with_outputs, group_finish_with_outputs.
Qed.

Lemma convert_app_at_change_witness :
  convert_results_to_outputs (row_results ++ comment_results)
  = (convert_results_to_outputs row_results
     ++ convert_results_to_outputs comment_results)%list.
Proof.
  apply (convert_app_at_change row_results [data_record "c" "t3" 300]
           (data_record "b" "t2" 200) (comment_record "second")).
  - solve_nodup.
  - solve_nodup.
  - reflexivity.
  - discriminate.
  - reflexivity.
Defined.

(** ** Registration and lookup *)

Lemma before_slash_free (s rest : string) :
  has_slash s = false ->
  before_slash s = s /\ before_slash (s ++ String "/" rest) = s.
Proof.
  induction s as [|c s IH]; simpl; intros Hfree.
  - now split.
  - apply orb_false_iff in Hfree as [Hc Hs]. rewrite Hc.
    destruct (IH Hs) as [-> ->]. now split.
Qed.

Lemma fetch_query_lookup (url_path : string) (w : World) :
  fst (fetch_query url_path w) =
  match registered_queries w !! before_slash (drop_first url_path) with
  | Some query => inr (Some query, "")
  | None => inr (None, not_hosted (before_slash (drop_first url_path)))
  end.
Proof. unfold fetch_query. now destruct (registered_queries w !! _). Qed.

Lemma register_query_ok (query : Query) (w : World) :
  setup query = None ->
  register_query query w =
  (inr tt,
   {| registered_queries := <[fst (names query) := query]> (registered_queries w);
      url_rules := (url_rules w ++ [web_rule (fst (names query));
                                    json_rule (fst (names query))])%list;
      trace := (trace w ++ [EvSetup (fst (names query));
                            EvRegistrySet (fst (names query));
                            EvAddUrlRule (web_rule (fst (names query)));
                            EvAddUrlRule (json_rule (fst (names query)))])%list |}).
Proof.
  intros Hsetup.
  unfold register_query, call_setup, registry_set, add_url_rule, bind, emit, ret,
    web_rule, json_rule.
  rewrite Hsetup. destruct (names query) as [slug name]. simpl.
  now rewrite <- !app_assoc.
Qed.

(** X6. After a registration whose [setup] returns, with a slug that has no
    slash in it, the path of the interactive page and every path below it
    (the machine path among them) resolve to the query that was registered,
    with an empty error text; the two routes are added after the routes
    that were there. *)
Theorem registered_slug_resolves (query : Query) (w : World) (rest : string) :
  setup query = None ->
  has_slash (fst (names query)) = false ->
  fst (fetch_query ("/" ++ fst (names query)) (snd (register_query query w)))
    = inr (Some query, "")
  /\ fst (fetch_query ("/" ++ fst (names query) ++ "/" ++ rest)
            (snd (register_query query w)))
    = inr (Some query, "")
  /\ url_rules (snd (register_query query w))
    = (url_rules w ++ [web_rule (fst (names query)); json_rule (fst (names query))])%list.
Proof.
  intros Hsetup Hfree.
  rewrite (register_query_ok _ _ Hsetup).
  destruct (before_slash_free _ rest Hfree) as [H1 H2].
  rewrite !fetch_query_lookup.
  change (drop_first ("/" ++ fst (names query))) with (fst (names query)).
  change (drop_first ("/" ++ fst (names query) ++ "/" ++ rest))
    with (fst (names query) ++ String "/" rest).
  rewrite H1, H2. cbn [registered_queries url_rules snd].
  now rewrite lookup_insert_eq.
Qed.

Lemma registered_slug_resolves_witness :
  fst (fetch_query "/example" (snd (register_query example_query empty_world)))
    = inr (Some example_query, "")
  /\ fst (fetch_query "/example/json" (snd (register_query example_query empty_world)))
    = inr (Some example_query, "")
  /\ url_rules (snd (register_query example_query empty_world))
    = [web_rule "example"; json_rule "example"].
Proof.
  apply (registered_slug_resolves example_query empty_world "json"); reflexivity.
Defined.

(** X7. A registration, whether its [setup] returns or raises, does not
    change what a path naming another slug resolves to. *)
Theorem registration_keeps_other_slugs (query : Query) (w : World) (url_path : string) :
  before_slash (drop_first url_path) <> fst (names query) ->
  fst (fetch_query url_path (snd (register_query query w)))
  = fst (fetch_query url_path w).
Proof.
  intros Hother.
  destruct (setup query) as [e|] eqn:Hsetup.
  - rewrite !fetch_query_lookup.
    unfold register_query, call_setup, bind, emit, raise. now rewrite Hsetup.
  - rewrite !fetch_query_lookup, (register_query_ok _ _ Hsetup).
    cbn [registered_queries snd].
    now rewrite lookup_insert_ne by congruence.
Qed.

Lemma registration_keeps_other_slugs_witness :
  fst (fetch_query "/example/json"
         (snd (register_query (FailingQuery missing_file) example_world)))
  = fst (fetch_query "/example/json" example_world).
Proof.
  apply (registration_keeps_other_slugs (FailingQuery missing_file) example_world
           "/example/json").
  discriminate.
Defined.

(** X8. Registering a second query under a slug that is taken raises
    nothing: the registry then holds the second query under that slug, and
    the two routes of the slug are installed a second time. *)
Theorem reregistration_overwrites (q1 q2 : Query) (w : World) :
  setup q1 = None ->
  setup q2 = None ->
  fst (names q1) = fst (names q2) ->
  fst (register_query q2 (snd (register_query q1 w))) = inr tt
  /\ registered_queries (snd (register_query q2 (snd (register_query q1 w))))
     = <[fst (names q2) := q2]> (registered_queries w)
  /\ url_rules (snd (register_query q2 (snd (register_query q1 w))))
     = (url_rules w ++ [web_rule (fst (names q2)); json_rule (fst (names q2));
                        web_rule (fst (names q2)); json_rule (fst (names q2))])%list.
Proof.
  intros H1 H2 Hslug.
  rewrite (register_query_ok _ _ H1), (register_query_ok _ _ H2). simpl.
  rewrite Hslug. repeat split.
  - apply insert_insert_eq.
  - now rewrite <- app_assoc.
Qed.

Lemma reregistration_overwrites_witness :
  fst (register_query rival_query (snd (register_query example_query empty_world)))
    = inr tt
  /\ registered_queries
       (snd (register_query rival_query (snd (register_query example_query empty_world))))
     = <["example" := rival_query]> (registered_queries empty_world)
  /\ url_rules
       (snd (register_query rival_query (snd (register_query example_query empty_world))))
     = (url_rules empty_world ++ [web_rule "example"; json_rule "example";
                                  web_rule "example"; json_rule "example"])%list.
Proof.
  apply (reregistration_overwrites example_query rival_query empty_world); reflexivity.
Defined.

(** ** Unknown slugs *)

Lemma fetch_query_unknown (w : World) (request : Request) :
  registered_queries w !! request_slug request = None ->
  fetch_query (path request) w = (inr (None, not_hosted (request_slug request)), w).
Proof. unfold request_slug, fetch_query, not_hosted. now intros ->. Qed.

(** X9. A request whose path names a slug that is not registered is
    answered before anything else is looked at, query string included: the
    interactive path renders the error page with the not-hosted message,
    both machine paths raise a bad request with that message, and nothing
    is called or logged. *)
Theorem unknown_slug_is_reported (request : Request) (w : World) :
  registered_queries w !! request_slug request = None ->
  web_query_handler request w
    = (inr (RenderError (not_hosted (request_slug request))), w)
  /\ json_query_handler_get request w
    = (inl (BadRequest (not_hosted (request_slug request))), w)
  /\ json_query_handler_post request w
    = (inl (BadRequest (not_hosted (request_slug request))), w).
Proof.
  intros Hq.
  unfold web_query_handler, json_query_handler_get, json_query_handler_post.
  rewrite !(bind_ok _ _ _ _ _ (fetch_query_unknown _ _ Hq)).
  now split; [|split].
Qed.

Lemma unknown_slug_is_reported_witness :
  web_query_handler unknown_request example_world
    = (inr (RenderError (not_hosted "nowhere")), example_world)
  /\ json_query_handler_get unknown_request example_world
    = (inl (BadRequest (not_hosted "nowhere")), example_world)
  /\ json_query_handler_post unknown_request example_world
    = (inl (BadRequest (not_hosted "nowhere")), example_world).
Proof.
  apply (unknown_slug_is_reported unknown_request example_world).
  vm_compute. reflexivity.
Defined.

(** ** The interactive path *)

(** Takes a handler past the conversion and the check of [offset] and
    [count], for a request that is [unpaginated]. *)
Ltac pass_pagination Hu w :=
  let o := fresh "o" in
  let c := fresh "c" in
  let Ho := fresh "Ho" in
  let Hc := fresh "Hc" in
  let Hneg_o := fresh "Hneg_o" in
  let Hneg_c := fresh "Hneg_c" in
  destruct Hu as (o & c & Ho & Hc & Hneg_o & Hneg_c);
  rewrite (bind_ok _ _ _ _ _ (int_ok _ _ w Ho));
  rewrite (bind_ok _ _ _ _ _ (int_ok _ _ w Hc));
  replace ((0 <=? o) || (0 <=? c)) with false
    by (symmetry; apply orb_false_iff; split; apply Z.leb_gt; assumption).

Lemma nonempty_true {A : Type} (l : list A) : l <> [] -> nonempty l = true.
Proof. now destruct l. Qed.

(** X10. On the interactive path, a request to a hosted slug without any
    query parameter renders the query page with no results and no JSON
    text, and calls neither the input model nor [fetch]. *)
Theorem bare_page_calls_nothing (request : Request) (w : World) (query : Query) :
  hosted w request query ->
  args request = [] ->
  exists page,
    web_query_handler request w = (inr (RenderQuery page), w)
    /\ page_results page = []
    /\ page_json_post page = None
    /\ page_error page = ""
    /\ page_slug page = fst (names query)
    /\ page_desc page = snd (names query)
    /\ page_introduction page = introduction query
    /\ page_fields page = im_fields (inputs query).
Proof.
  intros Hq Hargs.
  unfold web_query_handler.
  rewrite (bind_ok _ _ _ _ _ (fetch_query_hosted _ _ _ Hq)). cbn [str_truthy].
  rewrite Hargs. unfold args_get, int_, the_query, bind, ret. simpl.
  destruct (names query) as [slug desc]. simpl.
  eexists. split; [reflexivity|]. now repeat split.
Qed.

Lemma bare_page_calls_nothing_witness :
  exists page,
    web_query_handler bare_request example_world = (inr (RenderQuery page), example_world)
    /\ page_results page = []
    /\ page_json_post page = None
    /\ page_error page = ""
    /\ page_slug page = fst (names example_query)
    /\ page_desc page = snd (names example_query)
    /\ page_introduction page = introduction example_query
    /\ page_fields page = im_fields (inputs example_query).
Proof.
  apply (bare_page_calls_nothing bare_request example_world example_query).
  - solve_hosted.
  - reflexivity.
Defined.

(** X11. On the interactive path, when the input binds and [fetch] returns
    records, the page shows those records grouped into blocks by
    [convert_results_to_outputs] and the bound input as JSON text; the
    input model and [fetch] are each called once, [fetch] with the one
    input, the source [web] and no pagination. *)
Theorem web_page_shows_grouped_results (request : Request) (w : World) (query : Query)
    (inp : Input) (results : list OutputRecord) :
  hosted w request query ->
  unpaginated request ->
  args request <> [] ->
  im_validate (inputs query) (args_kwargs (args request) []) = inr inp ->
  fetch query [inp] web None = inr results ->
  exists page w',
    web_query_handler request w = (inr (RenderQuery page), w')
    /\ page_results page = convert_results_to_outputs results
    /\ page_json_post page = Some (wrapper_json [inp])
    /\ page_args page = args request
    /\ events_since w w'
         [EvInputModel (args_kwargs (args request) []); EvFetch [inp] web None].
Proof.
  intros Hq Hu Hargs Hv Hf.
  unfold web_query_handler.
  rewrite (bind_ok _ _ _ _ _ (fetch_query_hosted _ _ _ Hq)). cbn [str_truthy].
  pass_pagination Hu w.
  unfold the_query. unfold bind at 1, ret at 1.
  destruct (names query) as [slug desc].
  rewrite (nonempty_true _ Hargs).
  unfold call_input_model, call_fetch, try_except, lift, bind, raise, ret, emit.
  cbn [fst snd trace registered_queries url_rules].
  rewrite Hv. cbn [fst snd trace registered_queries url_rules]. rewrite Hf.
  do 2 eexists. split; [reflexivity|]. repeat split.
  unfold events_since. cbn [trace]. now rewrite <- app_assoc.
Qed.

Lemma web_page_shows_grouped_results_witness :
  exists page w',
    web_query_handler plain_request example_world = (inr (RenderQuery page), w')
    /\ page_results page = convert_results_to_outputs sample_results
    /\ page_json_post page = Some (wrapper_json [plain_input])
    /\ page_args page = args plain_request
    /\ events_since example_world w'
         [EvInputModel (args_kwargs (args plain_request) []);
          EvFetch [plain_input] web None].
Proof.
  apply (web_page_shows_grouped_results plain_request example_world example_query
           plain_input sample_results).
  - solve_hosted.
  - exists (-1), (-1). repeat split; lia.
  - discriminate.
  - reflexivity.
  - reflexivity.
Defined.

(** Takes the interactive handler to its [try] block. *)
Ltac web_run Hq Hu Hargs w :=
  unfold web_query_handler;
  rewrite (bind_ok _ _ _ _ _ (fetch_query_hosted _ _ _ Hq)); cbn [str_truthy];
  pass_pagination Hu w;
  unfold the_query; unfold bind at 1, ret at 1;
  destruct (names _) as [slug desc];
  rewrite (nonempty_true _ Hargs);
  unfold call_input_model, call_fetch, capture_exception, try_except, lift,
    bind, raise, ret, emit;
  cbn [fst snd trace registered_queries url_rules].

(** X12. On the interactive path, when [fetch] raises the redirect signal,
    the answer is a redirect to the signalled location, and the signal is
    not reported to the error tracker. *)
Theorem web_redirect_is_followed (request : Request) (w : World) (query : Query)
    (inp : Input) (location : string) :
  hosted w request query ->
  unpaginated request ->
  args request <> [] ->
  im_validate (inputs query) (args_kwargs (args request) []) = inr inp ->
  fetch query [inp] web None = inl (RedirectError location) ->
  exists w',
    web_query_handler request w = (inr (Redirect location), w')
    /\ events_since w w'
         [EvInputModel (args_kwargs (args request) []); EvFetch [inp] web None].
Proof.
  intros Hq Hu Hargs Hv Hf.
  web_run Hq Hu Hargs w.
  rewrite Hv. cbn [fst snd trace registered_queries url_rules]. rewrite Hf.
  eexists. split; [reflexivity|].
  unfold events_since. cbn [trace]. now rewrite <- app_assoc.
Qed.

Lemma web_redirect_is_followed_witness :
  exists w',
    web_query_handler moved_request (world_with redirecting_query)
      = (inr (Redirect "https://example.org/elsewhere"), w')
    /\ events_since (world_with redirecting_query) w'
         [EvInputModel (args_kwargs (args moved_request) []);
          EvFetch [plain_input] web None].
Proof.
  apply (web_redirect_is_followed moved_request (world_with redirecting_query)
           redirecting_query plain_input "https://example.org/elsewhere").
  - solve_hosted.
  - exists (-1), (-1). repeat split; lia.
  - discriminate.
  - reflexivity.
  - reflexivity.
Defined.

(** X13. On the interactive path, when [fetch] raises anything but the
    redirect signal, the error is reported to the error tracker once and
    the error page is rendered with the traceback text. *)
Theorem web_fetch_failure_shows_traceback (request : Request) (w : World)
    (query : Query) (inp : Input) (err : exn) :
  hosted w request query ->
  unpaginated request ->
  args request <> [] ->
  im_validate (inputs query) (args_kwargs (args request) []) = inr inp ->
  fetch query [inp] web None = inl err ->
  (forall location, err <> RedirectError location) ->
  exists w',
    web_query_handler request w = (inr (RenderError (format_exc err)), w')
    /\ events_since w w'
         [EvInputModel (args_kwargs (args request) []); EvFetch [inp] web None;
          EvCapture err].
Proof.
  intros Hq Hu Hargs Hv Hf Hnot.
  web_run Hq Hu Hargs w.
  rewrite Hv. cbn [fst snd trace registered_queries url_rules]. rewrite Hf.
  destruct err as [d| |location|cls msg];
    try (now destruct (Hnot location));
    (eexists; split; [reflexivity|];
     unfold events_since; cbn [trace]; now rewrite <- !app_assoc).
Qed.

Lemma web_fetch_failure_shows_traceback_witness :
  exists w',
    web_query_handler broken_get_request broken_world
      = (inr (RenderError (format_exc missing_file)), w')
    /\ events_since broken_world w'
         [EvInputModel (args_kwargs (args broken_get_request) []);
          EvFetch [plain_input] web None; EvCapture missing_file].
Proof.
  apply (web_fetch_failure_shows_traceback broken_get_request broken_world
           (FailingQuery missing_file) plain_input missing_file).
  - solve_hosted.
  - exists (-1), (-1). repeat split; lia.
  - discriminate.
  - reflexivity.
  - reflexivity.
  - discriminate.
Defined.

(** X14. On the interactive path, an input that does not validate is
    handled by the same [except] clause as a failure of [fetch]: the
    validation error is reported to the error tracker and shown as a
    traceback on the error page, and [fetch] is not called. *)
Theorem web_validation_failure_shows_traceback (request : Request) (w : World)
    (query : Query) (err : exn) :
  hosted w request query ->
  unpaginated request ->
  args request <> [] ->
  im_validate (inputs query) (args_kwargs (args request) []) = inl err ->
  (forall location, err <> RedirectError location) ->
  exists w',
    web_query_handler request w = (inr (RenderError (format_exc err)), w')
    /\ events_since w w'
         [EvInputModel (args_kwargs (args request) []); EvCapture err].
Proof.
  intros Hq Hu Hargs Hv Hnot.
  web_run Hq Hu Hargs w.
  rewrite Hv. cbn [fst snd trace registered_queries url_rules].
  destruct err as [d| |location|cls msg];
    try (now destruct (Hnot location));
    (eexists; split; [reflexivity|];
     unfold events_since; cbn [trace]; now rewrite <- !app_assoc).
Qed.

Lemma web_validation_failure_shows_traceback_witness :
  exists w',
    web_query_handler invalid_get_request example_world
      = (inr (RenderError
                (format_exc (PyError "ValidationError" "validation error for ExampleInput"))),
         w')
    /\ events_since example_world w'
         [EvInputModel (args_kwargs (args invalid_get_request) []);
          EvCapture (PyError "ValidationError" "validation error for ExampleInput")].
Proof.
  apply (web_validation_failure_shows_traceback invalid_get_request example_world
           example_query (PyError "ValidationError" "validation error for ExampleInput")).
  - solve_hosted.
  - exists (-1), (-1). repeat split; lia.
  - discriminate.
  - reflexivity.
  - discriminate.
Defined.

(** ** The machine GET path *)

(** Takes the machine GET handler to the binding of its input. *)
Ltac get_run Hq Hu w :=
  unfold json_query_handler_get;
  rewrite (bind_ok _ _ _ _ _ (fetch_query_hosted _ _ _ Hq)); cbn [str_truthy];
  pass_pagination Hu w;
  unfold the_query, call_input_model, call_fetch, capture_exception, print,
    jsonify, try_except, lift, bind, raise, ret, emit;
  cbn [fst snd trace registered_queries url_rules first_unserializable].

(** X16. On the machine GET path, when the input binds and [fetch] returns
    records, the answer is the JSON array of the records' field mappings in
    the order [fetch] gave them, not grouped into blocks; the input is
    bound even when the query string is empty, and [fetch] is called once
    with the one input, the source [json_get] and no pagination. *)
Theorem get_returns_raw_records (request : Request) (w : World) (query : Query)
    (inp : Input) (records : list OutputRecord) :
  hosted w request query ->
  unpaginated request ->
  im_validate (inputs query) (args_kwargs (args request) []) = inr inp ->
  fetch query [inp] json_get None = inr records ->
  exists w',
    json_query_handler_get request w
      = (inr (JsonResponse (PyList (PyDict <$> (dict_ <$> records)))), w')
    /\ events_since w w'
         [EvInputModel (args_kwargs (args request) []); EvFetch [inp] json_get None].
Proof.
  intros Hq Hu Hv Hf.
  get_run Hq Hu w.
  rewrite Hv. cbn [fst snd trace registered_queries url_rules]. rewrite Hf.
  eexists. split; [reflexivity|].
  unfold events_since. cbn [trace]. now rewrite <- app_assoc.
Qed.

Lemma get_returns_raw_records_witness :
  exists w',
    json_query_handler_get plain_request example_world
      = (inr (JsonResponse (PyList (PyDict <$> (dict_ <$> sample_results)))), w')
    /\ events_since example_world w'
         [EvInputModel (args_kwargs (args plain_request) []);
          EvFetch [plain_input] json_get None].
Proof.
  apply (get_returns_raw_records plain_request example_world example_query
           plain_input sample_results).
  - solve_hosted.
  - exists (-1), (-1). repeat split; lia.
  - reflexivity.
  - reflexivity.
Defined.

(** X17. On the machine GET path, an input that does not validate gives a
    bad request whose description is the text of the validation error;
    the error is not reported to the error tracker and [fetch] is not
    called. *)
Theorem get_validation_failure_is_bad_request (request : Request) (w : World)
    (query : Query) (err : exn) :
  hosted w request query ->
  unpaginated request ->
  im_validate (inputs query) (args_kwargs (args request) []) = inl err ->
  exists w',
    json_query_handler_get request w = (inl (BadRequest (exn_str err)), w')
    /\ events_since w w' [EvInputModel (args_kwargs (args request) [])].
Proof.
  intros Hq Hu Hv.
  get_run Hq Hu w.
  rewrite Hv. cbn [fst snd trace registered_queries url_rules].
  eexists. split; reflexivity.
Qed.

Lemma get_validation_failure_is_bad_request_witness :
  exists w',
    json_query_handler_get invalid_get_request example_world
      = (inl (BadRequest "validation error for ExampleInput"), w')
    /\ events_since example_world w'
         [EvInputModel (args_kwargs (args invalid_get_request) [])].
Proof.
  apply (get_validation_failure_is_bad_request invalid_get_request example_world
           example_query (PyError "ValidationError" "validation error for ExampleInput")).
  - solve_hosted.
  - exists (-1), (-1). repeat split; lia.
  - reflexivity.
Defined.

(** X18. On the machine GET path every exception of [fetch], the redirect
    signal included, is reported to the error tracker, printed, and
    answered with an empty JSON object and status 500; nothing of the
    exception reaches the caller and no redirect is issued. *)
Theorem get_failure_is_opaque (request : Request) (w : World) (query : Query)
    (inp : Input) (err : exn) :
  hosted w request query ->
  unpaginated request ->
  im_validate (inputs query) (args_kwargs (args request) []) = inr inp ->
  fetch query [inp] json_get None = inl err ->
  exists w',
    json_query_handler_get request w = (inr (Jsonify (PyDict []) 500), w')
    /\ events_since w w'
         [EvInputModel (args_kwargs (args request) []);
          EvFetch [inp] json_get None; EvCapture err; EvPrint (format_exc err)].
Proof.
  intros Hq (o & c & Ho & Hc & Hneg_o & Hneg_c) Hv Hf.
  now apply (get_fetch_failure_is_500 request w query o c inp err).
Qed.

Lemma get_failure_is_opaque_witness :
  exists w',
    json_query_handler_get moved_request (world_with redirecting_query)
      = (inr (Jsonify (PyDict []) 500), w')
    /\ events_since (world_with redirecting_query) w'
         [EvInputModel (args_kwargs (args moved_request) []);
          EvFetch [plain_input] json_get None;
          EvCapture (RedirectError "https://example.org/elsewhere");
          EvPrint (format_exc (RedirectError "https://example.org/elsewhere"))].
Proof.
  apply (get_failure_is_opaque moved_request (world_with redirecting_query)
           redirecting_query plain_input
           (RedirectError "https://example.org/elsewhere")).
  - solve_hosted.
  - exists (-1), (-1). repeat split; lia.
  - reflexivity.
  - reflexivity.
Defined.

(** ** The machine POST path *)

Lemma bind_items_valid (input_model : InputModel)
    (raws : list (list (string * pyobj))) (ins : list Input) :
  Forall2 (fun kwargs inp => im_validate input_model kwargs = inr inp) raws ins ->
  forall (acc : list Input) (w : World),
    bind_items input_model (PyDict <$> raws) acc w =
    (inr (acc ++ ins)%list,
     {| registered_queries := registered_queries w;
        url_rules := url_rules w;
        trace := (trace w ++ (EvInputModel <$> raws))%list |}).
Proof.
  induction 1 as [|kwargs inp raws ins Hv _ IH]; intros acc w.
  - simpl. unfold ret. rewrite !app_nil_r. now destruct w.
  - simpl. unfold call_input_model, bind, ret, emit. simpl.
    rewrite Hv. unfold lift, ret. rewrite IH. simpl.
    now rewrite <- !app_assoc.
Qed.

(** X19. On the machine POST path, when every element of a list body
    validates, the binding gives the validated inputs in the order of the
    body, after one call of the input model per element, in that order. *)
Theorem batch_binds_in_order (input_model : InputModel) (request : Request)
    (w : World) (raws : list (list (string * pyobj))) (ins : list Input) :
  json request = inr (PyList (PyDict <$> raws)) ->
  Forall2 (fun kwargs inp => im_validate input_model kwargs = inr inp) raws ins ->
  bind_body input_model request w =
  (inr ins,
   {| registered_queries := registered_queries w;
      url_rules := url_rules w;
      trace := (trace w ++ (EvInputModel <$> raws))%list |}).
Proof.
  intros Hjson Hvalid.
  unfold bind_body, try_except. rewrite Hjson.
  unfold lift at 1. unfold bind at 1, ret at 1.
  unfold iter_json, lift at 1. unfold bind at 1, ret at 1.
  now rewrite (bind_items_valid _ _ _ Hvalid).
Qed.

Lemma batch_binds_in_order_witness :
  bind_body ExampleInput steady_post_request steady_world =
  (inr [plain_input],
   {| registered_queries := registered_queries steady_world;
      url_rules := url_rules steady_world;
      trace := (trace steady_world ++ (EvInputModel <$> [plain_input]))%list |}).
Proof.
  apply (batch_binds_in_order ExampleInput steady_post_request steady_world
           [plain_input] [plain_input]).
  - reflexivity.
  - repeat constructor.
Defined.

(** X20. On the machine POST path, a body that is not a JSON array never
    yields an input: the binding either raises a bad request or, for an
    empty object or an empty string, gives the empty batch; in both cases
    the input model is not called.  The same holds when the body cannot be
    decoded at all. *)
Theorem non_array_body_binds_nothing (input_model : InputModel) (request : Request)
    (w : World) :
  match json request with
  | inr (PyList _) => False
  | _ => True
  end ->
  bind_body input_model request w = (inr [], w)
  \/ exists msg, bind_body input_model request w = (inl (BadRequest msg), w).
Proof.
  intros Hbody. unfold bind_body, try_except, bind, lift, raise, ret.
  destruct (json request) as [e|body]; [right; eauto|].
  destruct body as [| | |s|items|entries|e]; simpl; try (right; eauto; fail).
  - destruct s as [|c s]; simpl; [left; reflexivity | right; eauto].
  - contradiction.
  - destruct entries as [|[k v] entries]; simpl; [left; reflexivity | right; eauto].
Qed.

Lemma non_array_body_binds_nothing_witness :
  bind_body ExampleInput object_body_request example_world = (inr [], example_world)
  \/ exists msg,
       bind_body ExampleInput object_body_request example_world
       = (inl (BadRequest msg), example_world).
Proof.
  apply (non_array_body_binds_nothing ExampleInput object_body_request example_world).
  exact I.
Defined.

(** Takes the machine POST handler past the binding and the conversions. *)
Ltac post_run Hq Hbody Ho Hc w1 :=
  unfold json_query_handler_post;
  rewrite (bind_ok _ _ _ _ _ (fetch_query_hosted _ _ _ Hq)); cbn [str_truthy];
  unfold the_query; unfold bind at 1, ret at 1;
  rewrite (bind_ok _ _ _ _ _ Hbody);
  rewrite (bind_ok _ _ _ _ _ (int_ok _ _ w1 Ho));
  rewrite (bind_ok _ _ _ _ _ (int_ok _ _ w1 Hc));
  unfold call_fetch, capture_exception, print, jsonify, try_except, lift, bind,
    raise, ret, emit;
  cbn [fst snd trace registered_queries url_rules].

(** X21. On the machine POST path, a request that carries neither [offset]
    nor [count] has [fetch] called with offset 0 and count
    [DEFAULT_QUERY_RESULT_SIZE], whatever [fetch] then does. *)
Theorem post_pagination_defaults (request : Request) (w w1 : World) (query : Query)
    (ins : list Input) :
  hosted w request query ->
  bind_body (inputs query) request w = (inr ins, w1) ->
  args_lookup (args request) "offset" = None ->
  args_lookup (args request) "count" = None ->
  exists tail,
    events_since w1 (snd (json_query_handler_post request w))
      (EvFetch ins json_post (Some (0, DEFAULT_QUERY_RESULT_SIZE)) :: tail).
Proof.
  intros Hq Hbody Hoff Hcount.
  assert (Ho : py_int (args_get (args request) "offset" "0") = Some 0).
  { unfold args_get. now rewrite Hoff. }
  assert (Hc : py_int (args_get (args request) "count" DEFAULT_QUERY_RESULT_SIZE_str)
               = Some DEFAULT_QUERY_RESULT_SIZE).
  { unfold args_get. now rewrite Hcount. }
  post_run Hq Hbody Ho Hc w1.
  destruct (fetch query ins json_post (Some (0, DEFAULT_QUERY_RESULT_SIZE)))
    as [err|records]; cbn [fst snd trace registered_queries url_rules first_unserializable].
  - eexists. unfold events_since. cbn [snd trace].
    rewrite <- !app_assoc. reflexivity.
  - exists []. reflexivity.
Qed.

Lemma post_pagination_defaults_witness :
  exists tail,
    events_since (snd (bind_body ExampleInput steady_post_request steady_world))
      (snd (json_query_handler_post steady_post_request steady_world))
      (EvFetch [plain_input] json_post (Some (0, DEFAULT_QUERY_RESULT_SIZE)) :: tail).
Proof.
  apply (post_pagination_defaults steady_post_request steady_world
           (snd (bind_body ExampleInput steady_post_request steady_world))
           steady_query [plain_input]).
  - solve_hosted.
  - apply pair_with_snd. vm_compute. reflexivity.
  - reflexivity.
  - reflexivity.
Defined.



(** X23. The [fetch] of the example query takes [offset] as its second
    positional parameter, so the call of the machine POST path, which
    passes the source positionally and [offset] by keyword, raises
    [TypeError] before the body of [fetch] runs: a POST request to the
    example query is never answered with records. *)
Theorem example_query_rejects_post (file : exn + list OutputRecord)
    (request : Request) (w : World) :
  hosted w request (ExampleQuery file) ->
  match fst (json_query_handler_post request w) with
  | inr (JsonResponse _) => False
  | _ => True
  end.
Proof.
  intros Hq.
  unfold json_query_handler_post.
  rewrite (bind_ok _ _ _ _ _ (fetch_query_hosted _ _ _ Hq)). cbn [str_truthy].
  unfold the_query. unfold bind at 1, ret at 1.
  destruct (bind_body (inputs (ExampleQuery file)) request w) as [[e|ins] w1] eqn:Hbody.
  { now rewrite (bind_err _ _ _ _ _ Hbody). }
  rewrite (bind_ok _ _ _ _ _ Hbody).
  unfold int_ at 1. unfold bind at 1.
  destruct (py_int (args_get (args request) "offset" "0")) as [o|];
    [|exact I].
  unfold ret at 1. unfold int_ at 1. unfold bind at 1.
  destruct (py_int (args_get (args request) "count" DEFAULT_QUERY_RESULT_SIZE_str))
    as [c|]; [|exact I].
  unfold ret at 1.
  unfold call_fetch, capture_exception, print, jsonify, try_except, lift, bind,
    raise, ret, emit. simpl. exact I.
Qed.

(** [POST /example/json] with one valid input. *)
Lemma example_query_rejects_post_witness :
  match fst (json_query_handler_post
               (post_request "/example/json" [] (PyList [PyDict plain_input]))
               example_world) with
  | inr (JsonResponse _) => False
  | _ => True
  end.
Proof.
  apply (example_query_rejects_post (inr sample_results)
           (post_request "/example/json" [] (PyList [PyDict plain_input]))
           example_world).
  solve_hosted.
Defined.

(** ** What a request can do to the process *)

Lemma fetch_count_app (evs1 evs2 : list Event) :
  fetch_count (evs1 ++ evs2) = (fetch_count evs1 + fetch_count evs2)%nat.
Proof. unfold fetch_count. now rewrite List.filter_app, length_app. Qed.

Lemma runs_within_mono {A : Type} (k k' : nat) (m : Prog A) :
  (k <= k')%nat -> runs_within k m -> runs_within k' m.
Proof.
  intros Hk Hm w. destruct (Hm w) as (Hq & Hu & evs & Hevs & Hn).
  repeat split; try assumption. exists evs. split; [assumption | lia].
Qed.

Lemma runs_within_pure {A : Type} (m : Prog A) :
  (forall w, snd (m w) = w) -> runs_within 0 m.
Proof.
  intros Hm w. rewrite Hm. repeat split. exists []. split; [|reflexivity].
  unfold events_since. now rewrite app_nil_r.
Qed.

Lemma runs_within_ret {A : Type} (a : A) : runs_within 0 (ret a).
Proof. now apply runs_within_pure. Qed.

Lemma runs_within_raise {A : Type} (e : exn) : runs_within 0 (raise (A := A) e).
Proof. now apply runs_within_pure. Qed.

Lemma runs_within_lift {A : Type} (r : exn + A) : runs_within 0 (lift r).
Proof. apply runs_within_pure. now destruct r. Qed.

Lemma runs_within_int (text : string) : runs_within 0 (int_ text).
Proof. apply runs_within_pure. intros w. unfold int_. now destruct (py_int text). Qed.

Lemma runs_within_the_query (query : option Query) : runs_within 0 (the_query query).
Proof. apply runs_within_pure. now destruct query. Qed.

Lemma runs_within_jsonify (body : pyobj) : runs_within 0 (jsonify body).
Proof.
  apply runs_within_pure. intros w. unfold jsonify.
  now destruct (first_unserializable body).
Qed.

Lemma runs_within_fetch_query (url_path : string) : runs_within 0 (fetch_query url_path).
Proof.
  apply runs_within_pure. intros w. unfold fetch_query.
  now destruct (registered_queries w !! _).
Qed.

Lemma runs_within_emit (ev : Event) :
  runs_within (if is_fetch ev then 1 else 0) (emit ev).
Proof.
  intros w. simpl. repeat split. exists [ev]. split; [reflexivity|].
  unfold fetch_count. simpl. now destruct (is_fetch ev).
Qed.

Lemma runs_within_bind {A B : Type} (k1 k2 : nat) (m : Prog A) (f : A -> Prog B) :
  runs_within k1 m -> (forall a, runs_within k2 (f a)) ->
  runs_within (k1 + k2) (bind m f).
Proof.
  intros Hm Hf w. destruct (Hm w) as (Hq1 & Hu1 & evs1 & He1 & Hn1).
  unfold bind. destruct (m w) as [[e|a] w1]; simpl in *.
  - repeat split; try assumption. exists evs1. split; [assumption | lia].
  - destruct (Hf a w1) as (Hq2 & Hu2 & evs2 & He2 & Hn2).
    repeat split; [congruence | congruence |].
    exists (evs1 ++ evs2)%list. split.
    + unfold events_since in *. now rewrite He2, He1, app_assoc.
    + rewrite fetch_count_app. lia.
Qed.

Lemma runs_within_try {A : Type} (k1 k2 : nat) (m : Prog A) (handler : exn -> Prog A) :
  runs_within k1 m -> (forall e, runs_within k2 (handler e)) ->
  runs_within (k1 + k2) (try_except m handler).
Proof.
  intros Hm Hh w. destruct (Hm w) as (Hq1 & Hu1 & evs1 & He1 & Hn1).
  unfold try_except. destruct (m w) as [[e|a] w1]; simpl in *.
  - destruct (Hh e w1) as (Hq2 & Hu2 & evs2 & He2 & Hn2).
    repeat split; [congruence | congruence |].
    exists (evs1 ++ evs2)%list. split.
    + unfold events_since in *. now rewrite He2, He1, app_assoc.
    + rewrite fetch_count_app. lia.
  - repeat split; try assumption. exists evs1. split; [assumption | lia].
Qed.

Lemma runs_within_call_input_model (input_model : InputModel)
    (kwargs : list (string * pyobj)) :
  runs_within 0 (call_input_model input_model kwargs).
Proof.
  unfold call_input_model. apply (runs_within_bind 0 0).
  - apply (runs_within_emit (EvInputModel kwargs)).
  - intros _. apply runs_within_lift.
Qed.

Lemma runs_within_call_fetch (query : Query) (ins : list Input)
    (source : RequestSource) (pagination : option (Z * Z)) :
  runs_within 1 (call_fetch query ins source pagination).
Proof.
  unfold call_fetch. apply (runs_within_bind 1 0).
  - apply (runs_within_emit (EvFetch ins source pagination)).
  - intros _. apply runs_within_lift.
Qed.

Lemma runs_within_bind_items (input_model : InputModel) (items : list pyobj)
    (acc : list Input) :
  runs_within 0 (bind_items input_model items acc).
Proof.
  revert acc. induction items as [|item items IH]; intros acc; simpl.
  - apply runs_within_ret.
  - apply (runs_within_bind 0 0); [apply runs_within_lift|]. intros kwargs.
    apply (runs_within_bind 0 0); [apply runs_within_call_input_model|]. intros inp.
    apply IH.
Qed.

Lemma runs_within_bind_body (input_model : InputModel) (request : Request) :
  runs_within 0 (bind_body input_model request).
Proof.
  unfold bind_body. apply (runs_within_try 0 0).
  - apply (runs_within_bind 0 0); [apply runs_within_lift|]. intros body.
    apply (runs_within_bind 0 0); [apply runs_within_lift|]. intros items.
    apply runs_within_bind_items.
  - intros e. apply runs_within_raise.
Qed.

Lemma web_runs_within (request : Request) : runs_within 1 (web_query_handler request).
Proof.
  unfold web_query_handler.
  apply (runs_within_bind 0 1); [apply runs_within_fetch_query|].
  intros [query error].
  destruct (str_truthy error);
    [apply (runs_within_mono 0); [lia | apply runs_within_ret]|].
  apply (runs_within_bind 0 1); [apply runs_within_int|]. intros offset.
  apply (runs_within_bind 0 1); [apply runs_within_int|]. intros count.
  destruct ((0 <=? offset) || (0 <=? count));
    [apply (runs_within_mono 0); [lia | apply runs_within_ret]|].
  apply (runs_within_bind 0 1); [apply runs_within_the_query|]. intros q.
  destruct (names q) as [slug desc].
  destruct (nonempty (args request));
    [|apply (runs_within_mono 0); [lia | apply runs_within_ret]].
  apply (runs_within_bind 1 0).
  - apply (runs_within_try 1 0).
    + apply (runs_within_bind 0 1); [apply runs_within_call_input_model|]. intros inp.
      apply (runs_within_bind 1 0); [apply runs_within_call_fetch|]. intros results.
      apply runs_within_ret.
    + intros err. destruct err; try apply runs_within_ret;
        (apply (runs_within_bind 0 0);
         [apply (runs_within_emit (EvCapture _)) | intros _; apply runs_within_ret]).
  - intros [response|[ins results]]; apply runs_within_ret.
Qed.

Lemma machine_failure_runs_within (err : exn) (body : pyobj) (status : Z)
    {A : Type} :
  runs_within 0
    (capture_exception err ;;
     print (format_exc err) ;;
     doc <- jsonify body ;;
     ret (inl (Jsonify doc status) : Response + A)).
Proof.
  apply (runs_within_bind 0 0); [apply (runs_within_emit (EvCapture err))|]. intros _.
  apply (runs_within_bind 0 0); [apply (runs_within_emit (EvPrint _))|]. intros _.
  apply (runs_within_bind 0 0); [apply runs_within_jsonify|]. intros doc.
  apply runs_within_ret.
Qed.

Lemma get_runs_within (request : Request) :
  runs_within 1 (json_query_handler_get request).
Proof.
  unfold json_query_handler_get.
  apply (runs_within_bind 0 1); [apply runs_within_fetch_query|].
  intros [query error].
  destruct (str_truthy error);
    [apply (runs_within_mono 0); [lia | apply runs_within_raise]|].
  apply (runs_within_bind 0 1); [apply runs_within_int|]. intros offset.
  apply (runs_within_bind 0 1); [apply runs_within_int|]. intros count.
  destruct ((0 <=? offset) || (0 <=? count));
    [apply (runs_within_mono 0); [lia | apply runs_within_raise]|].
  apply (runs_within_bind 0 1); [apply runs_within_the_query|]. intros q.
  apply (runs_within_bind 0 1).
  { apply (runs_within_try 0 0).
    - apply (runs_within_bind 0 0); [apply runs_within_call_input_model|]. intros inp.
      apply runs_within_ret.
    - intros e. apply runs_within_raise. }
  intros ins.
  apply (runs_within_bind 1 0).
  - apply (runs_within_try 1 0).
    + apply (runs_within_bind 1 0); [apply runs_within_call_fetch|]. intros records.
      apply runs_within_ret.
    + intros err. apply machine_failure_runs_within.
  - intros [response|result]; apply runs_within_ret.
Qed.

Lemma post_runs_within (request : Request) :
  runs_within 1 (json_query_handler_post request).
Proof.
  unfold json_query_handler_post.
  apply (runs_within_bind 0 1); [apply runs_within_fetch_query|].
  intros [query error].
  destruct (str_truthy error);
    [apply (runs_within_mono 0); [lia | apply runs_within_raise]|].
  apply (runs_within_bind 0 1); [apply runs_within_the_query|]. intros q.
  apply (runs_within_bind 0 1); [apply runs_within_bind_body|]. intros ins.
  apply (runs_within_bind 0 1); [apply runs_within_int|]. intros offset.
  apply (runs_within_bind 0 1); [apply runs_within_int|]. intros count.
  apply (runs_within_bind 1 0).
  - apply (runs_within_try 1 0).
    + apply (runs_within_bind 1 0); [apply runs_within_call_fetch|]. intros records.
      apply runs_within_ret.
    + intros err. apply machine_failure_runs_within.
  - intros [response|result]; apply runs_within_ret.
Qed.

(** X24. Whatever the request, no handler changes the registry or the
    routes, each only adds to the log, and each calls [fetch] at most once:
    a failure is never retried.  This holds for the interactive handler,
    for the two machine handlers, and for the dispatcher that picks one of
    them by the request method. *)
Theorem handlers_read_only_single_fetch (request : Request) :
  runs_within 1 (web_query_handler request)
  /\ runs_within 1 (json_query_handler_get request)
  /\ runs_within 1 (json_query_handler_post request)
  /\ runs_within 1 (json_query_handler request).
Proof.
  split; [apply web_runs_within|].
  split; [apply get_runs_within|].
  split; [apply post_runs_within|].
  unfold json_query_handler.
  destruct (String.eqb (method request) "GET"); [apply get_runs_within|].
  destruct (String.eqb (method request) "POST"); [apply post_runs_within|].
  apply (runs_within_mono 0); [lia | apply runs_within_raise].
Qed.

(** ** Blocks are maximal and uniform *)

Lemma neighbours_differ_snoc (bs : list Block) (b : Block) :
  neighbours_differ bs ->
  match last bs with
  | Some b' => keys_eq (columns b) (columns b') = false
  | None => True
  end ->
  neighbours_differ (bs ++ [b]).
Proof.
  induction bs as [|b1 bs IH]; intros Hbs Hlast; simpl.
  - now split.
  - destruct Hbs as [Hhead Htail]. rewrite last_cons in Hlast.
    destruct bs as [|b2 bs].
    + simpl in *. now repeat split.
    + split; [exact Hhead|]. apply IH; [exact Htail|].
      now destruct (last (b2 :: bs)).
Qed.

Lemma loop_neighbours (first : OutputRecord) (rest : list OutputRecord) :
  neighbours_differ (outputs (loop_state first rest))
  /\ match last (outputs (loop_state first rest)) with
     | Some b => keys_eq (last_keys (loop_state first rest)) (columns b) = false
     | None => True
     end.
Proof.
  induction rest as [|r rest IH] using rev_ind.
  - rewrite loop_state_first. now split.
  - destruct IH as [Hdiff Hlast]. rewrite loop_state_snoc.
    destruct (keys_eq (fields_keys r) (last_keys (loop_state first rest))) eqn:Hk.
    + rewrite group_step_same by assumption. now split.
    + rewrite group_step_change by assumption. simpl. split.
      * now apply neighbours_differ_snoc.
      * now rewrite last_snoc.
Qed.

(** X25. The runs the grouper forms are maximal: no block it emits
    compares equal in shape to the block before it. *)
Theorem neighbouring_blocks_differ (results : list OutputRecord) :
  neighbours_differ (convert_results_to_outputs results).
Proof.
  destruct results as [|first rest]; [exact I|].
  change (convert_results_to_outputs (first :: rest))
    with (group_finish (loop_state first rest)).
  destruct (loop_neighbours first rest) as [Hdiff Hlast].
  unfold group_finish.
  destruct (_ && _); [|assumption].
  now apply neighbours_differ_snoc.
Qed.

Lemma block_uniform_snoc (done : list OutputRecord) (x : OutputRecord) (b : Block) (e : nat) :
  block_uniform done b e -> block_uniform (done ++ [x]) b e.
Proof.
  intros [He Hall]. split.
  - rewrite length_app. lia.
  - intros i r Hi Hr. apply (Hall i r Hi).
    rewrite lookup_app_l in Hr by lia. exact Hr.
Qed.

Lemma close_block_uniform (done : list OutputRecord) (st : GroupState) :
  run_inv done st ->
  block_uniform done (close_block st)
    (length (block_records (outputs st)) + length (data (close_block st))).
Proof.
  intros (pre & run & r0 & -> & _ & _ & Hpre & Hrun & Hall).
  unfold block_uniform.
  change (data (close_block st)) with (last_output st).
  change (columns (close_block st)) with (last_keys st).
  rewrite Hpre, Hrun, !length_fmap. split.
  - rewrite length_app. lia.
  - intros i r Hi Hr.
    rewrite lookup_app_r in Hr by lia.
    rewrite Forall_forall in Hall. apply Hall.
    eapply list_elem_of_lookup_2. exact Hr.
Qed.

Lemma loop_uniform (first : OutputRecord) (rest : list OutputRecord) :
  Forall2 (block_uniform (first :: rest))
    (outputs (loop_state first rest))
    (block_ends 0 (outputs (loop_state first rest))).
Proof.
  induction rest as [|r rest IH] using rev_ind.
  - rewrite loop_state_first. constructor.
  - pose proof (close_block_uniform _ _ (run_inv_holds first rest)) as Hclose.
    rewrite loop_state_snoc, app_comm_cons.
    remember (loop_state first rest) as st eqn:Hst. clear Hst.
    remember (first :: rest) as done eqn:Hdone. clear Hdone.
    destruct (keys_eq (fields_keys r) (last_keys st)) eqn:Hk.
    + rewrite group_step_same by assumption. simpl.
      eapply Forall2_impl; [eassumption|].
      intros b e. apply block_uniform_snoc.
    + rewrite group_step_change by assumption. simpl.
      rewrite block_ends_app. apply Forall2_app.
      * eapply Forall2_impl; [eassumption|].
        intros b e. apply block_uniform_snoc.
      * simpl. constructor; [|constructor]. now apply block_uniform_snoc.
Qed.

(** X26. Within every block the grouper emits, each record of the block's
    range compares equal in shape to the block's columns, so the header of
    a block fits all of its rows. *)
Theorem blocks_are_uniform (results : list OutputRecord) :
  Forall2 (block_uniform results)
    (convert_results_to_outputs results)
    (block_ends 0 (convert_results_to_outputs results)).
Proof.
  destruct results as [|first rest]; [constructor|].
  change (convert_results_to_outputs (first :: rest))
    with (group_finish (loop_state first rest)).
  pose proof (close_block_uniform _ _ (run_inv_holds first rest)) as Hclose.
  pose proof (loop_uniform first rest) as Hall.
  unfold group_finish.
  destruct (_ && _); [|assumption].
  rewrite block_ends_app. apply Forall2_app; [assumption|].
  simpl. constructor; [exact Hclose | constructor].
Qed.
